(** * Freehand canvas: stroke store, path codec and easing catalog

    A shallow embedding of the drawing component, the drawing service and
    the easing catalog of the freehand-canvas application, together with the
    properties of its specification.

    JavaScript numbers are idealised as real numbers: rounding is outside
    the model, and the one place where the program tests for [NaN] (the
    result of [parseFloat]) is modelled with [option R], [None] being
    [NaN].  Arrays are lists in JavaScript order: index 0 is the head and
    [push]/[pop] work at the far end. *)

From Stdlib Require Import Reals Lra Lia List String Ascii Bool Arith ZArith DecimalString.
Import ListNotations.

Set Implicit Arguments.

(** ** The JavaScript built-ins the program calls *)

Module JS.

Definition number := R.
Bind Scope R_scope with number.

Local Open Scope R_scope.

(** [a < b] on numbers, as a boolean. *)
Definition lt (a b : number) : bool := if Rlt_dec a b then true else false.

(** [a === b] on numbers. *)
Definition strict_eq (a b : number) : bool := if Req_dec_T a b then true else false.

(** [Math.pow]: repeated multiplication (or division) when the exponent is
    an integer, [exp (e * ln b)] otherwise.  A negative base under a
    fractional exponent, which gives [NaN], is outside the model; the
    program raises 2 only to fractional exponents. *)
Definition Math_pow (base exponent : number) : number :=
  if Req_dec_T (frac_part exponent) 0
  then powerRZ base (Int_part exponent)
  else Rpower base exponent.

Definition Math_PI : number := PI.
Definition Math_cos (x : number) : number := cos x.
Definition Math_sin (x : number) : number := sin x.

(** [Math.hypot(a, b)]. *)
Definition Math_hypot (a b : number) : number := sqrt (a * a + b * b).

Local Close Scope R_scope.

(** [a.pop()]: the removed last element ([None] for [undefined], when the
    array is empty) and the array that is left. *)
Fixpoint Array_pop (A : Type) (a : list A) : option A * list A :=
  match a with
  | [] => (None, [])
  | [x] => (Some x, [])
  | x :: rest => let (last, kept) := Array_pop rest in (last, x :: kept)
  end.

(** [a.push(x)]. *)
Definition Array_push (A : Type) (a : list A) (x : A) : list A := a ++ [x].

(** [a.some(p)] and [a.filter(p)]. *)
Definition Array_some (A : Type) (p : A -> bool) (a : list A) : bool := existsb p a.
Definition Array_filter (A : Type) (p : A -> bool) (a : list A) : list A := filter p a.

(** [a.reduce(f, init)], the callback receiving the accumulator, the
    element, its index and the whole array. *)
Fixpoint reduce_from (A B : Type) (f : B -> A -> nat -> list A -> B)
    (arr : list A) (i : nat) (rest : list A) (acc : B) : B :=
  match rest with
  | [] => acc
  | x :: rest' => reduce_from f arr (S i) rest' (f acc x i arr)
  end.

Definition Array_reduce (A B : Type) (f : B -> A -> nat -> list A -> B)
    (init : B) (arr : list A) : B :=
  reduce_from f arr 0 arr init.

(** [a.join(sep)] on an array of strings. *)
Definition Array_join (sep : string) (a : list string) : string := String.concat sep a.

(** An association table in insertion order: the first entry under the
    key. *)
Fixpoint lookup (V : Type) (table : list (string * V)) (key : string) : option V :=
  match table with
  | [] => None
  | (k, v) :: rest => if String.eqb k key then Some v else lookup rest key
  end.

(** What reading [obj[key]] from an object literal gives: the object's own
    property, a member it inherits from [Object.prototype], or
    [undefined]. *)
Inductive property (V : Type) : Type :=
| Own (v : V)
| Inherited (name : string)
| Undefined.

Arguments Inherited {V} name.
Arguments Undefined {V}.

(** The members of [Object.prototype]. *)
Definition Object_prototype : list string :=
  [ "constructor"; "hasOwnProperty"; "isPrototypeOf"; "propertyIsEnumerable";
    "toLocaleString"; "toString"; "valueOf"; "__proto__";
    "__defineGetter__"; "__defineSetter__"; "__lookupGetter__"; "__lookupSetter__" ]%string.

(** [obj[key]] on an object literal whose own properties are [obj]. *)
Definition get (V : Type) (obj : list (string * V)) (key : string) : property V :=
  match lookup obj key with
  | Some v => Own v
  | None => if existsb (String.eqb key) Object_prototype then Inherited key else Undefined
  end.

Definition Object_keys (V : Type) (obj : list (string * V)) : list string :=
  map fst obj.

End JS.

(** ** The easing catalog *)

Module Easings.

Import JS.
Local Open Scope R_scope.

Definition linear (t : number) : number := t.
Definition easeInQuad (t : number) : number := t * t.
Definition easeOutQuad (t : number) : number := t * (2 - t).
Definition easeInOutQuad (t : number) : number :=
  if lt t 0.5 then 2 * t * t else -1 + (4 - 2 * t) * t.
Definition easeInCubic (t : number) : number := t * t * t.
Definition easeOutCubic (t : number) : number := 1 - Math_pow (1 - t) 3.
Definition easeInOutCubic (t : number) : number :=
  if lt t 0.5 then 4 * t * t * t else 1 - Math_pow (-2 * t + 2) 3 / 2.
Definition easeInQuart (t : number) : number := t * t * t * t.
Definition easeOutQuart (t : number) : number := 1 - Math_pow (1 - t) 4.
Definition easeInOutQuart (t : number) : number :=
  if lt t 0.5 then 8 * t * t * t * t else 1 - Math_pow (-2 * t + 2) 4 / 2.
Definition easeInQuint (t : number) : number := t * t * t * t * t.
Definition easeOutQuint (t : number) : number := 1 - Math_pow (1 - t) 5.
Definition easeInOutQuint (t : number) : number :=
  if lt t 0.5 then 16 * t * t * t * t * t else 1 - Math_pow (-2 * t + 2) 5 / 2.
Definition easeInSine (t : number) : number := 1 - Math_cos ((t * Math_PI) / 2).
Definition easeOutSine (t : number) : number := Math_sin ((t * Math_PI) / 2).
Definition easeInOutSine (t : number) : number := - (Math_cos (Math_PI * t) - 1) / 2.
Definition easeInExpo (t : number) : number :=
  if strict_eq t 0 then 0 else Math_pow 2 (10 * t - 10).
Definition easeOutExpo (t : number) : number :=
  if strict_eq t 1 then 1 else 1 - Math_pow 2 (-10 * t).
Definition easeInOutExpo (t : number) : number :=
  if strict_eq t 0 then 0
  else if strict_eq t 1 then 1
  else if lt t 0.5 then Math_pow 2 (20 * t - 10) / 2
  else (2 - Math_pow 2 (-20 * t + 10)) / 2.

Local Close Scope R_scope.

Definition EASINGS : list (string * (number -> number)) :=
  [ ("linear", linear);
    ("easeInQuad", easeInQuad);
    ("easeOutQuad", easeOutQuad);
    ("easeInOutQuad", easeInOutQuad);
    ("easeInCubic", easeInCubic);
    ("easeOutCubic", easeOutCubic);
    ("easeInOutCubic", easeInOutCubic);
    ("easeInQuart", easeInQuart);
    ("easeOutQuart", easeOutQuart);
    ("easeInOutQuart", easeInOutQuart);
    ("easeInQuint", easeInQuint);
    ("easeOutQuint", easeOutQuint);
    ("easeInOutQuint", easeInOutQuint);
    ("easeInSine", easeInSine);
    ("easeOutSine", easeOutSine);
    ("easeInOutSine", easeInOutSine);
    ("easeInExpo", easeInExpo);
    ("easeOutExpo", easeOutExpo);
    ("easeInOutExpo", easeInOutExpo) ]%string.

(** The catalog as the specification lists it: [linear], then each family
    in its [In], [Out] and [InOut] variants. *)
Definition families : list string :=
  ["Quad"; "Cubic"; "Quart"; "Quint"; "Sine"; "Expo"]%string.

Definition variants (family : string) : list string :=
  [ "easeIn" ++ family; "easeOut" ++ family; "easeInOut" ++ family ]%string.

Definition catalog_names : list string :=
  "linear"%string :: flat_map variants families.

End Easings.

(** ** Data model *)

(** A pointer sample, the array [[x, y, pressure]]. *)
Record Sample := mkSample {
  s_x : JS.number;
  s_y : JS.number;
  s_pressure : JS.number
}.

(** A point of an outline ring, the array [[x, y]]. *)
Definition Vec2 : Type := JS.number * JS.number.

Module Taper.
Record t := mk { taper : JS.number; easing : string }.
End Taper.

Module Outline.
Record t := mk { color : string; width : JS.number }.
End Outline.

Module ToolConfig.
Record t := mk {
  color : string;
  size : JS.number;
  opacity : JS.number;
  thinning : JS.number;
  streamline : JS.number;
  smoothing : JS.number;
  easing : string;
  start : Taper.t;
  end_ : Taper.t;
  outline : Outline.t
}.
End ToolConfig.

Module EraserConfig.
Record t := mk { size : JS.number }.
End EraserConfig.

(** A committed stroke.  [opacity] and [outlineWidth] come from
    [parseFloat] on import and may be [NaN] ([None]). *)
Module DrawingStroke.
Record t := mk {
  points : list Sample;
  path : string;
  color : string;
  opacity : option JS.number;
  outlineColor : string;
  outlineWidth : option JS.number
}.
End DrawingStroke.

(** The options record handed to the outline builder; an easing is what
    reading the catalog under the configured name gave. *)
Module TaperOptions.
Record t := mk {
  taper : JS.number;
  easing : JS.property (JS.number -> JS.number);
  cap : bool
}.
End TaperOptions.

Module StrokeOptions.
Record t := mk {
  size : JS.number;
  thinning : JS.number;
  streamline : JS.number;
  smoothing : JS.number;
  easing : JS.property (JS.number -> JS.number);
  start : TaperOptions.t;
  end_ : TaperOptions.t
}.
End StrokeOptions.

(** ** Documents, as the browser's parser returns them *)

Module DOM.

#[local] Unset Elimination Schemes.
Inductive Element :=
  Elem (tagName : string) (attributes : list (string * string)) (children : list Element).
#[local] Set Elimination Schemes.

Definition tagName (e : Element) : string := let (t, _, _) := e in t.
Definition attributes (e : Element) : list (string * string) := let (_, a, _) := e in a.

(** The elements below [e], in document order. *)
Fixpoint descendants (e : Element) : list Element :=
  match e with
  | Elem _ _ children => flat_map (fun c => c :: descendants c) children
  end.

(** A document is its root element. *)
Definition Document := Element.

(** [doc.querySelector(tag)]: the first element of the document with that
    tag, [None] for [null]. *)
Definition Document_querySelector (doc : Document) (tag : string) : option Element :=
  find (fun e => String.eqb (tagName e) tag) (doc :: descendants doc).

(** [e.querySelectorAll(tag)]: the elements below [e] with that tag. *)
Definition querySelectorAll (e : Element) (tag : string) : list Element :=
  filter (fun c => String.eqb (tagName c) tag) (descendants e).

(** [e.getAttribute(name)], [None] for [null]. *)
Definition getAttribute (e : Element) (name : string) : option string :=
  JS.lookup (attributes e) name.

End DOM.

(** What the program takes from its platform: the conversion of a number
    to a string, the outline builder of the perfect-freehand library and
    the browser's document parser. *)
Record Platform := mkPlatform {
  Number_toString : JS.number -> string;
  getStroke : list Sample -> StrokeOptions.t -> list Vec2;
  parseFromString : string -> DOM.Document
}.

(** ** Regular expressions of the shape the program uses

    A pattern is a sequence of character classes, each under a greedy
    quantifier; matching backtracks as the JavaScript engine does: a
    quantifier first takes as many characters as it can and gives them
    back one at a time while the rest of the pattern fails. *)

Module RegExp.

Inductive quantifier := Once | Optional | ZeroOrMore | OneOrMore.

Definition pattern := list ((ascii -> bool) * quantifier).

Definition consume (c : ascii) (r : option (string * string)) : option (string * string) :=
  match r with
  | Some (m, rest) => Some (String c m, rest)
  | None => None
  end.

Definition or_else (A : Type) (r alt : option A) : option A :=
  match r with
  | Some x => Some x
  | None => alt
  end.

(** [cls*] followed by the continuation [k]. *)
Fixpoint star (cls : ascii -> bool) (k : string -> option (string * string))
    (s : string) : option (string * string) :=
  match s with
  | String c s' => if cls c then or_else (consume c (star cls k s')) (k s) else k s
  | EmptyString => k s
  end.

(** Match the pattern at the start of [s]: the matched text and what
    follows it. *)
Fixpoint exec_at (p : pattern) (s : string) : option (string * string) :=
  match p with
  | [] => Some (EmptyString, s)
  | (cls, q) :: p' =>
      match q with
      | Once =>
          match s with
          | String c s' => if cls c then consume c (exec_at p' s') else None
          | EmptyString => None
          end
      | Optional =>
          match s with
          | String c s' =>
              if cls c then or_else (consume c (exec_at p' s')) (exec_at p' s)
              else exec_at p' s
          | EmptyString => exec_at p' s
          end
      | ZeroOrMore => star cls (exec_at p') s
      | OneOrMore =>
          match s with
          | String c s' => if cls c then consume c (star cls (exec_at p') s') else None
          | EmptyString => None
          end
      end
  end.

(** The global scan behind [s.match(/.../g)]: try the pattern at each
    index from left to right; after a match the scan resumes behind it
    (one character further when the match is empty).  [skip] counts the
    characters of the last match still to step over. *)
Fixpoint scan (p : pattern) (skip : nat) (s : string) : list string :=
  match skip with
  | S skip' =>
      match s with
      | String _ s' => scan p skip' s'
      | EmptyString => []
      end
  | O =>
      match exec_at p s with
      | Some (m, _) =>
          m :: match s with
               | String _ s' => scan p (String.length m - 1) s'
               | EmptyString => []
               end
      | None =>
          match s with
          | String _ s' => scan p 0 s'
          | EmptyString => []
          end
      end
  end.

(** [s.match(re)] for a global [re]: [None] for [null]. *)
Definition String_match (s : string) (p : pattern) : option (list string) :=
  match scan p 0 s with
  | [] => None
  | found => Some found
  end.

End RegExp.

(** ** [parseFloat] *)

Module Numeric.

Import JS.

Definition is_digit (c : ascii) : bool :=
  let n := nat_of_ascii c in (48 <=? n) && (n <=? 57).

Definition is_sign (c : ascii) : bool :=
  Ascii.eqb c "-" || Ascii.eqb c "+".

Definition is_dot (c : ascii) : bool := Ascii.eqb c ".".

Definition is_white_space (c : ascii) : bool :=
  let n := nat_of_ascii c in
  (n =? 9) || (n =? 10) || (n =? 11) || (n =? 12) || (n =? 13) || (n =? 32).

Fixpoint trim_start (s : string) : string :=
  match s with
  | String c s' => if is_white_space c then trim_start s' else s
  | EmptyString => s
  end.

(** The digits at the start of [s], and what follows them. *)
Fixpoint take_digits (s : string) : string * string :=
  match s with
  | String c s' =>
      if is_digit c
      then let (ds, rest) := take_digits s' in (String c ds, rest)
      else (EmptyString, s)
  | EmptyString => (EmptyString, s)
  end.

Definition digit_value (c : ascii) : Z := Z.of_nat (nat_of_ascii c - 48).

Fixpoint digits_value (acc : Z) (ds : string) : Z :=
  match ds with
  | String c ds' => digits_value (10 * acc + digit_value c) ds'
  | EmptyString => acc
  end.

Definition take_sign (s : string) : bool * string :=
  match s with
  | String c s' =>
      if Ascii.eqb c "-" then (true, s')
      else if Ascii.eqb c "+" then (false, s')
      else (false, s)
  | EmptyString => (false, s)
  end.

(** The exponent part [e±ddd] at the start of [s], 0 when there is none. *)
Definition exponent_part (s : string) : Z :=
  match s with
  | String c s' =>
      if Ascii.eqb c "e" || Ascii.eqb c "E" then
        let (negative, s'') := take_sign s' in
        let (ds, _) := take_digits s'' in
        match ds with
        | EmptyString => 0%Z
        | _ => if negative then (- digits_value 0 ds)%Z else digits_value 0 ds
        end
      else 0%Z
  | EmptyString => 0%Z
  end.

(** A decimal literal: sign, the digits of the mantissa, the power of ten. *)
Record decimal := mkDecimal {
  negative : bool;
  mantissa : Z;
  exponent10 : Z
}.

(** The longest decimal literal at the start of the trimmed string;
    [None] when there is none.  The literal [Infinity], which has no value
    among the reals, is not recognised. *)
Definition StrDecimalLiteral (input : string) : option decimal :=
  let (neg, s) := take_sign (trim_start input) in
  let (ip, s1) := take_digits s in
  let (fp, s2) :=
    match s1 with
    | String c r => if is_dot c then take_digits r else (EmptyString, s1)
    | EmptyString => (EmptyString, s1)
    end in
  match (ip ++ fp)%string with
  | EmptyString => None
  | ds => Some (mkDecimal neg (digits_value 0 ds)
                  (exponent_part s2 - Z.of_nat (String.length fp)))
  end.

Definition decimal_value (d : decimal) : number :=
  ((if negative d then -1 else 1) * IZR (mantissa d) * powerRZ 10 (exponent10 d))%R.

(** [parseFloat(s)]; [None] is [NaN]. *)
Definition parseFloat (s : string) : option number :=
  option_map decimal_value (StrDecimalLiteral s).

(** [isNaN(x)]. *)
Definition isNaN (x : option number) : bool :=
  match x with
  | Some _ => false
  | None => true
  end.

End Numeric.

(** ** The drawing service *)

Module DrawingService.

Import JS.

Section WithPlatform.

Variable platform : Platform.

(** Library options for the outline builder, from a tool configuration. *)
Definition getLibOptions (tool : ToolConfig.t) : StrokeOptions.t :=
  StrokeOptions.mk
    (ToolConfig.size tool)
    (ToolConfig.thinning tool)
    (ToolConfig.streamline tool)
    (ToolConfig.smoothing tool)
    (get Easings.EASINGS (ToolConfig.easing tool))
    (TaperOptions.mk
       (Taper.taper (ToolConfig.start tool))
       (get Easings.EASINGS (Taper.easing (ToolConfig.start tool)))
       true)
    (TaperOptions.mk
       (Taper.taper (ToolConfig.end_ tool))
       (get Easings.EASINGS (Taper.easing (ToolConfig.end_ tool)))
       true).

(** An entry of the array that [getSvgPathFromStroke] joins: a command
    letter or a number. *)
Inductive PathItem :=
| Str (s : string)
| Num (n : number).

Definition PathItem_toString (item : PathItem) : string :=
  match item with
  | Str s => s
  | Num n => Number_toString platform n
  end.

(** The callback of the [reduce] in [getSvgPathFromStroke]. *)
Definition pushSegment (acc : list PathItem) (p : Vec2) (i : nat) (_arr : list Vec2)
    : list PathItem :=
  let '(x0, y0) := p in
  let '(x1, y1) := nth ((i + 1) mod List.length _arr) _arr p in
  acc ++ [Num x0; Num y0; Num ((x0 + x1) / 2)%R; Num ((y0 + y1) / 2)%R].

(** Convert the points of an outline to an SVG path string. *)
Definition getSvgPathFromStroke (stroke : list Vec2) : string :=
  match stroke with
  | [] => EmptyString
  | (x, y) :: _ =>
      let d := Array_reduce pushSegment [Str "M"; Num x; Num y; Str "Q"] stroke in
      let d := Array_push d (Str "Z") in
      Array_join " " (map PathItem_toString d)
  end.

(** The preview path of the points drawn so far. *)
Definition generatePreviewPath (points : list Sample) (tool : ToolConfig.t) : string :=
  let strokePoints := getStroke platform points (getLibOptions tool) in
  getSvgPathFromStroke strokePoints.

(** The regular expression [/[-+]?[0-9]*\.?[0-9]+/g]. *)
Definition regex : RegExp.pattern :=
  [ (Numeric.is_sign, RegExp.Optional);
    (Numeric.is_digit, RegExp.ZeroOrMore);
    (Numeric.is_dot, RegExp.Optional);
    (Numeric.is_digit, RegExp.OneOrMore) ].

(** The loop [for (let i = 0; i < numbers.length - 1; i += 2)] of
    [extractPointsFromPath]; every round moves [i] forward, so
    [length numbers] rounds are enough. *)
Fixpoint pairLoop (rounds : nat) (numbers : list string) (i : nat)
    (points : list Sample) : list Sample :=
  match rounds with
  | O => points
  | S rounds' =>
      if (Z.of_nat i <? Z.of_nat (List.length numbers) - 1)%Z then
        let x := Numeric.parseFloat (nth i numbers EmptyString) in
        let y := Numeric.parseFloat (nth (i + 1) numbers EmptyString) in
        let points :=
          match x, y with
          | Some x, Some y => Array_push points (mkSample x y 0.5%R)
          | _, _ => points
          end in
        pairLoop rounds' numbers (i + 2) points
      else points
  end.

(** Extract coordinate pairs from SVG path data. *)
Definition extractPointsFromPath (d : string) : list Sample :=
  match RegExp.String_match d regex with
  | Some numbers => pairLoop (List.length numbers) numbers 0 []
  | None => []
  end.

(** [value || fallback] on an attribute: [null] and the empty string are
    falsy. *)
Definition or_default (value : option string) (fallback : string) : string :=
  match value with
  | Some (String c v) => String c v
  | _ => fallback
  end.

(** The body of the [forEach] over the path elements of
    [parseSVGContent]. *)
Definition importPath (strokes : list DrawingStroke.t) (path : DOM.Element)
    : list DrawingStroke.t :=
  match DOM.getAttribute path "d" with
  | Some (String c d') =>
      let d := String c d' in
      let fill := or_default (DOM.getAttribute path "fill") "#000000" in
      let fillOpacity := Numeric.parseFloat (or_default (DOM.getAttribute path "fill-opacity") "1") in
      let stroke := or_default (DOM.getAttribute path "stroke") "none" in
      let strokeWidth := Numeric.parseFloat (or_default (DOM.getAttribute path "stroke-width") "0") in
      let points := extractPointsFromPath d in
      Array_push strokes
        (DrawingStroke.mk points d
           (if String.eqb fill "none" then "#000000" else fill)
           fillOpacity
           (if String.eqb stroke "none" then "#000000" else stroke)
           strokeWidth)
  | _ => strokes
  end.

(** Parse SVG content and extract its strokes. *)
Definition parseSVGContent (svgContent : string) : list DrawingStroke.t :=
  let doc := parseFromString platform svgContent in
  match DOM.Document_querySelector doc "svg" with
  | None => []
  | Some svgElement =>
      let paths := DOM.querySelectorAll svgElement "path" in
      fold_left importPath paths []
  end.

(** Is the point close enough to a stroke for erasing it? *)
Definition shouldEraseStroke (stroke : DrawingStroke.t) (x y eraserSize : number) : bool :=
  Array_some
    (fun p => lt (Math_hypot (s_x p - x)%R (s_y p - y)%R) eraserSize)
    (DrawingStroke.points stroke).

(** The default tool configuration; [opacity] is [undefined] ([None])
    when the caller leaves it out, and then defaults to 1. *)
Definition getDefaultTool (color : string) (size : number) (opacity : option number)
    : ToolConfig.t :=
  ToolConfig.mk color size
    (match opacity with Some o => o | None => 1%R end)
    0.5%R 0.5%R 0.23%R "linear"
    (Taper.mk 0%R "linear") (Taper.mk 0%R "linear")
    (Outline.mk "#9747ff" 0%R).

End WithPlatform.

End DrawingService.

(** ** The drawing component *)

Module DrawingComponent.

Import JS.

Inductive ToolName := Pen1 | Pen2 | Highlighter | Eraser.

Definition is_eraser (name : ToolName) : bool :=
  match name with
  | Eraser => true
  | _ => false
  end.

Module Tools.
Record t := mk {
  pen1 : ToolConfig.t;
  pen2 : ToolConfig.t;
  highlighter : ToolConfig.t;
  eraser : EraserConfig.t
}.
End Tools.

(** [tools[name] as ToolConfig]; the eraser slot holds no [ToolConfig]. *)
Definition drawingTool (tools : Tools.t) (name : ToolName) : option ToolConfig.t :=
  match name with
  | Pen1 => Some (Tools.pen1 tools)
  | Pen2 => Some (Tools.pen2 tools)
  | Highlighter => Some (Tools.highlighter tools)
  | Eraser => None
  end.

(** The fields of the component. *)
Record State := mkState {
  isDragging : bool;
  sidebarOpen : bool;
  isSending : bool;
  allStrokes : list DrawingStroke.t;
  redoStack : list DrawingStroke.t;
  activeTool : ToolName;
  currentPoints : list Sample;
  previewPath : string;
  tools : Tools.t
}.

Definition set_allStrokes (v : list DrawingStroke.t) (this : State) : State :=
  mkState (isDragging this) (sidebarOpen this) (isSending this) v (redoStack this)
    (activeTool this) (currentPoints this) (previewPath this) (tools this).

Definition set_redoStack (v : list DrawingStroke.t) (this : State) : State :=
  mkState (isDragging this) (sidebarOpen this) (isSending this) (allStrokes this) v
    (activeTool this) (currentPoints this) (previewPath this) (tools this).

Definition set_currentPoints (v : list Sample) (this : State) : State :=
  mkState (isDragging this) (sidebarOpen this) (isSending this) (allStrokes this)
    (redoStack this) (activeTool this) v (previewPath this) (tools this).

Definition set_previewPath (v : string) (this : State) : State :=
  mkState (isDragging this) (sidebarOpen this) (isSending this) (allStrokes this)
    (redoStack this) (activeTool this) (currentPoints this) v (tools this).

Definition set_tools (v : Tools.t) (this : State) : State :=
  mkState (isDragging this) (sidebarOpen this) (isSending this) (allStrokes this)
    (redoStack this) (activeTool this) (currentPoints this) (previewPath this) v.

Record PointerEvent := mkPointerEvent {
  clientX : number;
  clientY : number;
  pressure : number;
  buttons : Z
}.

(** What [getBoundingClientRect] returns for the drawing surface. *)
Record DOMRect := mkDOMRect {
  left : number;
  top : number
}.

Section WithPlatform.

Variable platform : Platform.

(** The component as it is constructed. *)
Definition initial : State :=
  mkState false false false [] [] Pen1 [] EmptyString
    (Tools.mk
       (DrawingService.getDefaultTool "#eb454a" 16%R None)
       (DrawingService.getDefaultTool "#3b82f6" 16%R None)
       (DrawingService.getDefaultTool "#ffeb3b" 30%R (Some 0.4%R))
       (EraserConfig.mk 40%R)).

Definition loadSVGContent (svgContent : string) (this : State) : State :=
  let strokes := DrawingService.parseSVGContent platform svgContent in
  set_redoStack [] (set_allStrokes strokes this).

Definition resetPenSettings (this : State) : State :=
  let ts := tools this in
  match activeTool this with
  | Eraser => this
  | Pen1 =>
      set_tools (Tools.mk (DrawingService.getDefaultTool "#eb454a" 16%R (Some 1%R))
                   (Tools.pen2 ts) (Tools.highlighter ts) (Tools.eraser ts)) this
  | Pen2 =>
      set_tools (Tools.mk (Tools.pen1 ts)
                   (DrawingService.getDefaultTool "#3b82f6" 16%R (Some 1%R))
                   (Tools.highlighter ts) (Tools.eraser ts)) this
  | Highlighter =>
      set_tools (Tools.mk (Tools.pen1 ts) (Tools.pen2 ts)
                   (DrawingService.getDefaultTool "#ffeb3b" 30%R (Some 0.4%R))
                   (Tools.eraser ts)) this
  end.

Definition undo (this : State) : State :=
  let (s, rest) := Array_pop (allStrokes this) in
  let this := set_allStrokes rest this in
  match s with
  | Some s => set_redoStack (Array_push (redoStack this) s) this
  | None => this
  end.

Definition redo (this : State) : State :=
  let (s, rest) := Array_pop (redoStack this) in
  let this := set_redoStack rest this in
  match s with
  | Some s => set_allStrokes (Array_push (allStrokes this) s) this
  | None => this
  end.

Definition clearCanvas (this : State) : State :=
  set_redoStack [] (set_allStrokes [] this).

Definition getCoords (rect : DOMRect) (e : PointerEvent) : number * number :=
  ((clientX e - left rect)%R, (clientY e - top rect)%R).

Definition erase (rect : DOMRect) (e : PointerEvent) (this : State) : State :=
  let '(x, y) := getCoords rect e in
  set_allStrokes
    (Array_filter
       (fun s => negb (DrawingService.shouldEraseStroke s x y
                         (EraserConfig.size (Tools.eraser (tools this)))))
       (allStrokes this))
    this.

Definition onPointerDown (rect : DOMRect) (e : PointerEvent) (this : State) : State :=
  if is_eraser (activeTool this) then erase rect e this
  else
    let '(x, y) := getCoords rect e in
    set_redoStack [] (set_currentPoints [mkSample x y (pressure e)] this).

Definition onPointerMove (rect : DOMRect) (e : PointerEvent) (this : State) : State :=
  if negb (buttons e =? 1)%Z then this
  else if is_eraser (activeTool this) then erase rect e this
  else
    match drawingTool (tools this) (activeTool this) with
    | None => this
    | Some tool =>
        let '(x, y) := getCoords rect e in
        let this := set_currentPoints (currentPoints this ++ [mkSample x y (pressure e)]) this in
        set_previewPath
          (DrawingService.generatePreviewPath platform (currentPoints this) tool) this
    end.

Definition onPointerUp (this : State) : State :=
  let this :=
    if (0 <? List.length (currentPoints this)) && negb (is_eraser (activeTool this)) then
      match drawingTool (tools this) (activeTool this) with
      | None => this
      | Some t =>
          set_allStrokes
            (Array_push (allStrokes this)
               (DrawingStroke.mk (currentPoints this) (previewPath this)
                  (ToolConfig.color t) (Some (ToolConfig.opacity t))
                  (Outline.color (ToolConfig.outline t))
                  (Some (Outline.width (ToolConfig.outline t)))))
            this
      end
    else this in
  set_previewPath EmptyString (set_currentPoints [] this).

End WithPlatform.

End DrawingComponent.

(** ** The component before the drawing service was split off

    The earlier revision of the component kept in the repository parses an
    imported document itself. *)

Module LegacyComponent.

Import JS.
Import DrawingComponent.

Section WithPlatform.

Variable platform : Platform.

(** The body of the [forEach] over the path elements: the stroke is pushed
    onto the committed strokes. *)
Definition importPath (this : State) (path : DOM.Element) : State :=
  set_allStrokes (DrawingService.importPath (allStrokes this) path) this.

Definition parseSVGContent (svgContent : string) (this : State) : State :=
  let doc := parseFromString platform svgContent in
  match DOM.Document_querySelector doc "svg" with
  | None => this
  | Some svgElement =>
      let paths := DOM.querySelectorAll svgElement "path" in
      set_redoStack [] (fold_left importPath paths this)
  end.

End WithPlatform.

End LegacyComponent.

(** ** The specification's words, as definitions

    These follow the specification, not the code; the properties below
    compare them with the program. *)

Module Spec.

Import JS.

(** Does [s] end with [suffix]? *)
Definition ends_with (suffix s : string) : bool :=
  String.eqb
    (substring (String.length s - String.length suffix) (String.length suffix) s)
    suffix.

(** The Expo entries of the easing catalog. *)
Definition expo_entries : list (string * (number -> number)) :=
  filter (fun entry => ends_with "Expo" (fst entry)) Easings.EASINGS.

(** Has the path a [d] attribute that is not empty? *)
Definition has_path_data (path : DOM.Element) : bool :=
  match DOM.getAttribute path "d" with
  | Some (String _ _) => true
  | _ => false
  end.

(** The point after each point of a ring, the last point wrapping back to
    the first. *)
Definition next_in_ring (ring : list Vec2) : list Vec2 :=
  match ring with
  | [] => []
  | first :: rest => rest ++ [first]
  end.

Definition midpoint (p q : Vec2) : Vec2 :=
  (((fst p + fst q) / 2)%R, ((snd p + snd q) / 2)%R).

(** The numbers of one quadratic-curve segment: its control point, then
    its end point. *)
Definition quadratic (toString : number -> string) (control endpoint : Vec2) : list string :=
  [ toString (fst control); toString (snd control);
    toString (fst endpoint); toString (snd endpoint) ].

(** The path of a ring: a moveto to the first point, one quadratic segment
    per ring point, from the point as control point to the midpoint
    between it and the next, and the close-path. *)
Definition encode (toString : number -> string) (ring : list Vec2) : string :=
  match ring with
  | [] => EmptyString
  | first :: _ =>
      String.concat " "
        ([ "M"%string; toString (fst first); toString (snd first); "Q"%string ]
         ++ flat_map (fun step => quadratic toString (fst step) (midpoint (fst step) (snd step)))
              (combine ring (next_in_ring ring))
         ++ [ "Z"%string ])
  end.

(** Consecutive elements taken two by two; an odd last element is
    dropped. *)
Fixpoint pair_up (A : Type) (l : list A) : list (A * A) :=
  match l with
  | x :: y :: rest => (x, y) :: pair_up rest
  | _ => []
  end.

(** The text made of [tokens] in this order, with [gaps] before, between
    and after them. *)
Fixpoint weave (gaps tokens : list string) : string :=
  match gaps, tokens with
  | gap :: gaps', token :: tokens' => (gap ++ token ++ weave gaps' tokens')%string
  | gap :: _, [] => gap
  | [], _ => EmptyString
  end.

Fixpoint all_chars (cls : ascii -> bool) (s : string) : bool :=
  match s with
  | String c s' => cls c && all_chars cls s'
  | EmptyString => true
  end.

Definition has_no_digit (s : string) : bool :=
  all_chars (fun c => negb (Numeric.is_digit c)) s.

(** A numeric token: a signed integer or a signed decimal, that is an
    optional sign, then digits, or digits (possibly none), a dot and at
    least one digit. *)
Definition is_numeric_token (t : string) : bool :=
  let (_, s) := Numeric.take_sign t in
  let (ip, rest) := Numeric.take_digits s in
  match rest with
  | EmptyString => negb (String.eqb ip EmptyString)
  | String c r =>
      Numeric.is_dot c &&
      (let (fp, rest') := Numeric.take_digits r in
       negb (String.eqb fp EmptyString) && String.eqb rest' EmptyString)
  end.

(** How many characters a quantifier lets its class take. *)
Definition quantity (q : RegExp.quantifier) (n : nat) : Prop :=
  match q with
  | RegExp.Once => n = 1
  | RegExp.Optional => n <= 1
  | RegExp.ZeroOrMore => True
  | RegExp.OneOrMore => 1 <= n
  end.

(** The texts a pattern describes. *)
Fixpoint matches (p : RegExp.pattern) (m : string) : Prop :=
  match p with
  | [] => m = EmptyString
  | (cls, q) :: p' =>
      exists a b, m = (a ++ b)%string /\ all_chars cls a = true /\
                  quantity q (String.length a) /\ matches p' b
  end.

(** The Euclidean distance from a sample to the point [(x, y)]. *)
Definition distance (p : Sample) (x y : number) : number :=
  sqrt ((s_x p - x)² + (s_y p - y)²).

(** A stroke is hit by the eraser at [(x, y)] when one of its samples lies
    at a distance strictly less than [radius]. *)
Definition hit (stroke : DrawingStroke.t) (x y radius : number) : Prop :=
  Exists (fun p => (distance p x y < radius)%R) (DrawingStroke.points stroke).

(** A stroke is clear of the eraser when every sample is at a distance of
    [radius] or more. *)
Definition clear (stroke : DrawingStroke.t) (x y radius : number) : Prop :=
  Forall (fun p => (radius <= distance p x y)%R) (DrawingStroke.points stroke).

End Spec.

(** ** Concrete inputs *)

Module Examples.

Import JS DrawingComponent.
Local Open Scope string_scope.

Definition strokeA : DrawingStroke.t :=
  DrawingStroke.mk [mkSample 0 0 0.5; mkSample 10 0 0.5]%R "M 0 0 Q 0 0 5 0 10 0 5 0 Z"
    "#eb454a" (Some 1%R) "#9747ff" (Some 0%R).

Definition strokeB : DrawingStroke.t :=
  DrawingStroke.mk [mkSample 100 100 0.5]%R "M 100 100 Q 100 100 100 100 Z"
    "#3b82f6" (Some 1%R) "#9747ff" (Some 0%R).

(** A component with [committed] and [undone] strokes and [tool] active. *)
Definition stateWith (committed undone : list DrawingStroke.t) (tool : ToolName) : State :=
  mkState false false false committed undone tool [] EmptyString (tools initial).

(** A pen whose easing name is not in the catalog. *)
Definition bogusTool : ToolConfig.t :=
  ToolConfig.mk "#000000" 16 1 0.5 0.5 0.23 "easeInBounce"
    (Taper.mk 0 "linear") (Taper.mk 0 "linear") (Outline.mk "#9747ff" 0).

Definition origin : DOMRect := mkDOMRect 0%R 0%R.

(** The pointer pressed at [(x, y)]. *)
Definition pointerAt (x y : number) : PointerEvent := mkPointerEvent x y 0.5%R 1%Z.

(** What a browser's parser returns for text that is not XML. *)
Definition parserError : DOM.Document := DOM.Elem "parsererror" [] [].

(** A document with two paths, the second without a [d] attribute. *)
Definition twoPaths : DOM.Document :=
  DOM.Elem "svg" []
    [ DOM.Elem "path" [("d", "M1 2 Q3 4 5 6 Z"); ("fill", "none")] [];
      DOM.Elem "g" [] [ DOM.Elem "path" [("fill", "#ff0000")] [] ] ].

(** A stand-in platform: numbers print as their integral part, the outline
    of some samples is the samples themselves, and the parser knows the
    text ["two"] only. *)
Definition platform : Platform :=
  mkPlatform
    (fun n => NilZero.string_of_int (Z.to_int (Int_part n)))
    (fun points _ => map (fun p => (s_x p, s_y p)) points)
    (fun text => if String.eqb text "two" then twoPaths else parserError).

End Examples.

(** ** Sequences of events *)

Module Scenarios.

Import JS DrawingComponent.

(** The strokes in the order of their commits: the committed ones, then
    the undone ones from the last undone to the first. *)
Definition history (this : State) : list DrawingStroke.t :=
  allStrokes this ++ rev (redoStack this).

(** The sample that a pointer event adds to the stroke in progress. *)
Definition sampleOf (rect : DOMRect) (e : PointerEvent) : Sample :=
  mkSample (clientX e - left rect) (clientY e - top rect) (pressure e).

(** Is the primary button, and no other, down ([e.buttons === 1])? *)
Definition pressed (e : PointerEvent) : bool := (buttons e =? 1)%Z.

(** The pointer-move events of a gesture, handled one after the other. *)
Definition drag (platform : Platform) (rect : DOMRect) (moves : list PointerEvent)
    (this : State) : State :=
  fold_left (fun this e => onPointerMove platform rect e this) moves this.

(** A whole gesture: pointer-down, the pointer-moves, pointer-up. *)
Definition gesture (platform : Platform) (rect : DOMRect) (down : PointerEvent)
    (moves : list PointerEvent) (this : State) : State :=
  onPointerUp (drag platform rect moves (onPointerDown rect down this)).

(** The stroke that the component commits for [points] drawn with [tool]
    and shown as [path]. *)
Definition strokeOf (points : list Sample) (path : string) (tool : ToolConfig.t)
    : DrawingStroke.t :=
  DrawingStroke.mk points path (ToolConfig.color tool) (Some (ToolConfig.opacity tool))
    (Outline.color (ToolConfig.outline tool))
    (Some (Outline.width (ToolConfig.outline tool))).

(** Does the eraser of [size], at the position of the event, erase the
    stroke? *)
Definition erasedAt (rect : DOMRect) (size : number) (e : PointerEvent)
    (s : DrawingStroke.t) : bool :=
  DrawingService.shouldEraseStroke s (clientX e - left rect) (clientY e - top rect) size.

(** [fill] and [stroke] colours as the import reads them: black for a
    missing or empty attribute and for [none]. *)
Definition importedColour (attribute : option string) : string :=
  match attribute with
  | Some (String c v) => if String.eqb (String c v) "none" then "#000000" else String c v
  | _ => "#000000"
  end.

(** What the import makes of a path element: the stroke [s] comes from
    the element [path]. *)
Definition importedFrom (path : DOM.Element) (s : DrawingStroke.t) : Prop :=
  DOM.getAttribute path "d" = Some (DrawingStroke.path s) /\
  DrawingStroke.path s <> EmptyString /\
  DrawingStroke.points s = DrawingService.extractPointsFromPath (DrawingStroke.path s) /\
  DrawingStroke.color s = importedColour (DOM.getAttribute path "fill") /\
  DrawingStroke.outlineColor s = importedColour (DOM.getAttribute path "stroke").

(** The points that decoding the path of a ring gives: the first point,
    then each point followed by the midpoint to the next. *)
Definition decodedRing (ring : list Vec2) : list Vec2 :=
  match ring with
  | [] => []
  | first :: _ =>
      first ::
      flat_map (fun step => [fst step; Spec.midpoint (fst step) (snd step)])
        (combine ring (Spec.next_in_ring ring))
  end.

(** The text is empty or starts with a character outside the class. *)
Definition stops (cls : ascii -> bool) (s : string) : Prop :=
  match s with
  | String c _ => cls c = false
  | EmptyString => True
  end.

(** A one-letter word that is no part of a number, as the command letters
    of a path are. *)
Definition isCommand (w : string) : bool :=
  match w with
  | String c EmptyString =>
      negb (Numeric.is_sign c || Numeric.is_digit c || Numeric.is_dot c)
  | _ => false
  end.

(** [fill-opacity] and [stroke-width] as the import reads them: the
    default for a missing or empty attribute, what [parseFloat] makes of
    the attribute otherwise ([None] being [NaN]). *)
Definition importedNumber (attribute : option string) (default : number) : option number :=
  match attribute with
  | Some (String c v) => Numeric.parseFloat (String c v)
  | _ => Some default
  end.

(** A stroke without samples, as the import of a path without numbers
    gives. *)
Definition blankStroke : DrawingStroke.t :=
  DrawingStroke.mk [] "M Z" "#000000" (Some 1%R) "#000000" (Some 0%R).

(** The component with its eraser set to [size]. *)
Definition withEraserSize (size : number) (this : State) : State :=
  set_tools
    (Tools.mk (Tools.pen1 (tools this)) (Tools.pen2 (tools this))
       (Tools.highlighter (tools this)) (EraserConfig.mk size))
    this.

(** The numbers of the path of a ring, in the order in which the path
    writes them: the first point, then each point followed by the midpoint
    to the next. *)
Definition pathNumbers (ring : list Vec2) : list number :=
  match ring with
  | [] => []
  | first :: _ =>
      fst first :: snd first ::
      flat_map (fun step =>
                  [ fst (fst step); snd (fst step);
                    fst (Spec.midpoint (fst step) (snd step));
                    snd (Spec.midpoint (fst step) (snd step)) ])
        (combine ring (Spec.next_in_ring ring))
  end.

End Scenarios.

(** ** Numerals, as the specification reads them

    A numeric token is a signed integer or decimal.  The text is read
    from left to right without going back: a sign, as many digits as
    there are, and a dot with the digits behind it; the number a token
    writes is its digits over the power of ten of its fraction.  This
    follows the specification, not the regular expression of the
    program. *)

Module Tokens.

Import JS.
Local Open Scope string_scope.









End Tokens.

(** * Properties *)

Unset Implicit Arguments.

(** ** Numbers *)

Module NumberFacts.

Import JS.
Local Open Scope R_scope.

Lemma lt_true (a b : number) : lt a b = true <-> a < b.
Proof.
  unfold lt. destruct (Rlt_dec a b); split; intros; try assumption;
    try reflexivity; try discriminate; contradiction.
Qed.

Lemma lt_false (a b : number) : lt a b = false <-> b <= a.
Proof.
  unfold lt. destruct (Rlt_dec a b); split; intros; try discriminate;
    try reflexivity; lra.
Qed.

Lemma strict_eq_refl (a : number) : strict_eq a a = true.
Proof. unfold strict_eq. destruct (Req_dec_T a a); [reflexivity | contradiction]. Qed.

Lemma strict_eq_neq (a b : number) : a <> b -> strict_eq a b = false.
Proof. unfold strict_eq. destruct (Req_dec_T a b); [contradiction | reflexivity]. Qed.

Lemma Int_part_IZR (z : Z) : Int_part (IZR z) = z.
Proof.
  symmetry. apply Int_part_spec. split; [| lra].
  rewrite <- minus_IZR. apply IZR_lt. lia.
Qed.

Lemma frac_part_IZR (z : Z) : frac_part (IZR z) = 0.
Proof. unfold frac_part. rewrite Int_part_IZR. lra. Qed.

(** On an integer exponent [Math.pow] multiplies. *)
Lemma Math_pow_IZR (b : number) (z : Z) : Math_pow b (IZR z) = powerRZ b z.
Proof.
  unfold Math_pow. destruct (Req_dec_T (frac_part (IZR z)) 0) as [_ | H].
  - now rewrite Int_part_IZR.
  - contradiction H. apply frac_part_IZR.
Qed.

Lemma Math_pow_0 (b : number) : Math_pow b 0 = 1.
Proof. apply (Math_pow_IZR b 0). Qed.

Lemma Math_pow_3 (b : number) : Math_pow b 3 = b * b * b.
Proof. rewrite (Math_pow_IZR b 3). simpl. lra. Qed.

(** On a positive base [Math.pow] is the real power function. *)
Lemma Math_pow_Rpower (b e : number) : 0 < b -> Math_pow b e = Rpower b e.
Proof.
  intros Hb. unfold Math_pow. destruct (Req_dec_T (frac_part e) 0) as [H | H].
  - rewrite powerRZ_Rpower by assumption. f_equal.
    rewrite (Rplus_Int_part_frac_part e) at 2. lra.
  - reflexivity.
Qed.

Lemma Math_hypot_nonneg (a b : number) : 0 <= Math_hypot a b.
Proof. apply sqrt_pos. Qed.

End NumberFacts.

(** ** The easing catalog *)

Module EasingFacts.

Import JS Easings NumberFacts.
Local Open Scope R_scope.

Lemma EASINGS_keys : Object_keys EASINGS = catalog_names.
Proof. reflexivity. Qed.

Lemma easeInExpo_at_0 : easeInExpo 0 = 0.
Proof. unfold easeInExpo. now rewrite strict_eq_refl. Qed.

Lemma easeInExpo_at_1 : easeInExpo 1 = 1.
Proof.
  unfold easeInExpo. rewrite strict_eq_neq by lra.
  replace (10 * 1 - 10) with 0 by lra. apply Math_pow_0.
Qed.

Lemma easeOutExpo_at_0 : easeOutExpo 0 = 0.
Proof.
  unfold easeOutExpo. rewrite strict_eq_neq by lra.
  replace (-10 * 0) with 0 by lra. rewrite Math_pow_0. lra.
Qed.

Lemma easeOutExpo_at_1 : easeOutExpo 1 = 1.
Proof. unfold easeOutExpo. now rewrite strict_eq_refl. Qed.

Lemma easeInOutExpo_at_0 : easeInOutExpo 0 = 0.
Proof. unfold easeInOutExpo. now rewrite strict_eq_refl. Qed.

Lemma easeInOutExpo_at_1 : easeInOutExpo 1 = 1.
Proof.
  unfold easeInOutExpo. rewrite strict_eq_neq by lra. now rewrite strict_eq_refl.
Qed.

(** C6, as the claim states it, fails: the catalog does not have 21
    entries. *)
Lemma C6_catalog_does_not_have_21_entries : List.length EASINGS <> 21%nat.
Proof. cbn. discriminate. Qed.

(** C6, amended: the easing catalog has 19 entries, namely [linear], which
    is the identity function, and the quad, cubic, quart, quint, sine and
    expo families, each in its In, Out and InOut variant; no name occurs
    twice. *)
Theorem C6_catalog_has_19_entries :
  List.length EASINGS = 19%nat /\
  Object_keys EASINGS = "linear"%string :: flat_map variants families /\
  List.length families = 6%nat /\
  NoDup (Object_keys EASINGS) /\
  exists f, get EASINGS "linear" = Own f /\ forall t, f t = t.
Proof.
  split; [reflexivity |]. split; [reflexivity |]. split; [reflexivity |].
  split.
  - rewrite EASINGS_keys. cbn.
    repeat (constructor; [cbn; intuition discriminate |]). constructor.
  - exists linear. split; [reflexivity |]. intros t. reflexivity.
Qed.

(** C9: [linear] maps 0 to 0 and 1 to 1, and every Expo entry of the
    catalog ([easeInExpo], [easeOutExpo] and [easeInOutExpo]) returns
    exactly 0 at 0 and exactly 1 at 1, so the value at either endpoint is a
    finite number. *)
Theorem C9_endpoints_exact :
  get EASINGS "linear" = Own linear /\
  linear 0 = 0 /\ linear 1 = 1 /\
  Object_keys Spec.expo_entries = ["easeInExpo"; "easeOutExpo"; "easeInOutExpo"]%string /\
  Forall (fun entry => snd entry 0 = 0 /\ snd entry 1 = 1) Spec.expo_entries.
Proof.
  split; [reflexivity |]. split; [reflexivity |]. split; [reflexivity |].
  split; [reflexivity |].
  change Spec.expo_entries
    with [ ("easeInExpo"%string, easeInExpo);
           ("easeOutExpo"%string, easeOutExpo);
           ("easeInOutExpo"%string, easeInOutExpo) ].
  repeat constructor; cbn [snd].
  - apply easeInExpo_at_0.
  - apply easeInExpo_at_1.
  - apply easeOutExpo_at_0.
  - apply easeOutExpo_at_1.
  - apply easeInOutExpo_at_0.
  - apply easeInOutExpo_at_1.
Qed.

End EasingFacts.

(** ** Arrays *)

Module ArrayFacts.

Import JS.

Lemma Array_pop_push {A : Type} (a : list A) (x : A) :
  Array_pop (Array_push a x) = (Some x, a).
Proof.
  unfold Array_push. induction a as [| y a IH]; [reflexivity |].
  change ((y :: a) ++ [x]) with (y :: (a ++ [x])).
  cbn [Array_pop]. rewrite IH.
  destruct (a ++ [x]) eqn:E; [destruct a; discriminate | reflexivity].
Qed.

Lemma Array_pop_empty (A : Type) : Array_pop (@nil A) = (None, []).
Proof. reflexivity. Qed.

(** An array is empty or was built by a last [push]. *)
Lemma Array_last_push {A : Type} (a : list A) :
  a = [] \/ exists a' x, a = Array_push a' x.
Proof.
  induction a as [| x a' _] using rev_ind; [now left | right].
  now exists a', x.
Qed.

End ArrayFacts.

(** ** The stroke store: undo, redo, erase, gestures and import *)

Module StoreFacts.

Import JS DrawingComponent ArrayFacts NumberFacts.

Lemma undo_empty (this : State) : allStrokes this = [] -> undo this = this.
Proof.
  intros H. unfold undo. rewrite H. cbn. destruct this; cbn in *. now subst.
Qed.

Lemma redo_empty (this : State) : redoStack this = [] -> redo this = this.
Proof.
  intros H. unfold redo. rewrite H. cbn. destruct this; cbn in *. now subst.
Qed.

Lemma undo_push (this : State) (committed : list DrawingStroke.t) (s : DrawingStroke.t) :
  allStrokes this = Array_push committed s ->
  undo this = set_redoStack (Array_push (redoStack this) s) (set_allStrokes committed this).
Proof.
  intros H. unfold undo. rewrite H, Array_pop_push. reflexivity.
Qed.

Lemma redo_push (this : State) (undone : list DrawingStroke.t) (s : DrawingStroke.t) :
  redoStack this = Array_push undone s ->
  redo this = set_allStrokes (Array_push (allStrokes this) s) (set_redoStack undone this).
Proof.
  intros H. unfold redo. rewrite H, Array_pop_push. reflexivity.
Qed.

Lemma redo_undo (this : State) : allStrokes this <> [] -> redo (undo this) = this.
Proof.
  intros H. destruct (Array_last_push (allStrokes this)) as [E | [c [s E]]];
    [contradiction |].
  rewrite (undo_push this c s E).
  rewrite (redo_push _ (redoStack this) s) by reflexivity.
  destruct this; cbn in *. now subst.
Qed.

(** C3: [undo] moves the last committed stroke onto the redo stack and
    changes nothing when no stroke is committed; [redo] moves the last
    entry of the redo stack back and changes nothing when that stack is
    empty; from committed [A; B] and an empty redo stack, [undo] gives
    committed [A] and redo [B], and [redo] then gives back committed
    [A; B] and redo []; [redo] after [undo] is the identity on every state
    with a committed stroke. *)
Theorem C3_undo_redo (this : State) :
  (allStrokes this = [] -> undo this = this) /\
  (redoStack this = [] -> redo this = this) /\
  (forall committed s, allStrokes this = committed ++ [s] ->
     allStrokes (undo this) = committed /\
     redoStack (undo this) = redoStack this ++ [s]) /\
  (forall undone s, redoStack this = undone ++ [s] ->
     redoStack (redo this) = undone /\
     allStrokes (redo this) = allStrokes this ++ [s]) /\
  (forall A B, allStrokes this = [A; B] -> redoStack this = [] ->
     allStrokes (undo this) = [A] /\ redoStack (undo this) = [B] /\
     allStrokes (redo (undo this)) = [A; B] /\ redoStack (redo (undo this)) = []) /\
  (allStrokes this <> [] -> redo (undo this) = this).
Proof.
  split; [apply undo_empty |]. split; [apply redo_empty |].
  split; [intros c s H; now rewrite (undo_push this c s H) |].
  split; [intros r s H; now rewrite (redo_push this r s H) |].
  split; [| apply redo_undo].
  intros A B Hc Hr.
  assert (Hne : allStrokes this <> []) by (rewrite Hc; discriminate).
  rewrite (redo_undo this Hne), (undo_push this [A] B Hc), Hc, Hr. now cbn.
Qed.

(** The inputs of C3 exist: a store with two committed strokes. *)
Lemma C3_undo_redo_witness :
  let this := Examples.stateWith [Examples.strokeA; Examples.strokeB] [] Pen1 in
  (allStrokes (undo this) = [Examples.strokeA] /\
   redoStack (undo this) = [Examples.strokeB] /\
   allStrokes (redo (undo this)) = [Examples.strokeA; Examples.strokeB] /\
   redoStack (redo (undo this)) = []) /\
  redo (undo this) = this /\
  undo (Examples.stateWith [] [] Pen1) = Examples.stateWith [] [] Pen1.
Proof.
  intros this.
  destruct (C3_undo_redo this) as (_ & _ & _ & _ & Hab & Hid).
  destruct (C3_undo_redo (Examples.stateWith [] [] Pen1)) as (Hempty & _).
  split; [apply (Hab Examples.strokeA Examples.strokeB); reflexivity |].
  split; [apply Hid; discriminate | apply Hempty; reflexivity].
Defined.

(** *** Erasing *)

Lemma hypot_distance (p : Sample) (x y : number) :
  Math_hypot (s_x p - x)%R (s_y p - y)%R = Spec.distance p x y.
Proof. reflexivity. Qed.

Lemma shouldEraseStroke_hit (s : DrawingStroke.t) (x y radius : number) :
  DrawingService.shouldEraseStroke s x y radius = true <-> Spec.hit s x y radius.
Proof.
  unfold DrawingService.shouldEraseStroke, Array_some, Spec.hit.
  rewrite existsb_exists, Exists_exists.
  split; intros [p [Hin Hp]]; exists p; split; try assumption;
    rewrite hypot_distance, lt_true in *; assumption.
Qed.

Lemma shouldEraseStroke_clear (s : DrawingStroke.t) (x y radius : number) :
  DrawingService.shouldEraseStroke s x y radius = false <-> Spec.clear s x y radius.
Proof.
  unfold DrawingService.shouldEraseStroke, Array_some, Spec.clear.
  rewrite Forall_forall. split.
  - intros H p Hin. apply lt_false. rewrite <- hypot_distance.
    destruct (lt _ radius) eqn:E; [| reflexivity].
    assert (existsb (fun p => lt (Math_hypot (s_x p - x)%R (s_y p - y)%R) radius)
              (DrawingStroke.points s) = true) as Hex
      by (apply existsb_exists; now exists p).
    congruence.
  - intros H. apply not_true_is_false. intros Hex.
    apply existsb_exists in Hex as [p [Hin Hp]].
    apply lt_true in Hp. rewrite hypot_distance in Hp.
    specialize (H p Hin). lra.
Qed.

(** [erase] touches the committed strokes only. *)
Lemma erase_frame (rect : DOMRect) (e : PointerEvent) (this : State) :
  erase rect e this = set_allStrokes (allStrokes (erase rect e this)) this.
Proof. reflexivity. Qed.

(** C5: erasing at a point keeps, in their order and unchanged, exactly
    the committed strokes all of whose samples are at a Euclidean distance
    of the radius or more from the point, and removes, whole, exactly
    those with a sample at a distance strictly less than the radius; the
    rest of the store is as it was. *)
Theorem C5_erase_removes_exactly_the_hit_strokes
    (rect : DOMRect) (e : PointerEvent) (this : State) :
  let x := (clientX e - left rect)%R in
  let y := (clientY e - top rect)%R in
  let radius := EraserConfig.size (Tools.eraser (tools this)) in
  let after := erase rect e this in
  (forall s, DrawingService.shouldEraseStroke s x y radius = true <-> Spec.hit s x y radius) /\
  (forall s, DrawingService.shouldEraseStroke s x y radius = false <-> Spec.clear s x y radius) /\
  allStrokes after =
    filter (fun s => negb (DrawingService.shouldEraseStroke s x y radius)) (allStrokes this) /\
  (forall s, In s (allStrokes after) <-> In s (allStrokes this) /\ Spec.clear s x y radius) /\
  (forall s, In s (allStrokes this) -> Spec.hit s x y radius -> ~ In s (allStrokes after)) /\
  after = set_allStrokes (allStrokes after) this.
Proof.
  intros x y radius after.
  split; [intros s; apply shouldEraseStroke_hit |].
  split; [intros s; apply shouldEraseStroke_clear |].
  split; [reflexivity |].
  assert (Hin : forall s, In s (allStrokes after) <->
                          In s (allStrokes this) /\ Spec.clear s x y radius).
  { intros s. subst after. unfold erase, getCoords. cbn [allStrokes set_allStrokes].
    unfold Array_filter. rewrite filter_In, negb_true_iff, shouldEraseStroke_clear.
    reflexivity. }
  split; [exact Hin |]. split; [| reflexivity].
  intros s _ Hhit Hafter. apply Hin in Hafter as [_ Hclear].
  apply shouldEraseStroke_hit in Hhit. apply shouldEraseStroke_clear in Hclear.
  congruence.
Qed.

(** C5 at a concrete store: the eraser of radius 40 at the origin removes
    the stroke with a sample at the origin and keeps the stroke whose one
    sample is at (100, 100). *)
Lemma C5_erase_witness :
  let this := Examples.stateWith [Examples.strokeA; Examples.strokeB] [] Eraser in
  let after := erase Examples.origin (Examples.pointerAt 0 0) this in
  In Examples.strokeB (allStrokes after) /\ ~ In Examples.strokeA (allStrokes after).
Proof.
  intros this after.
  destruct (C5_erase_removes_exactly_the_hit_strokes
              Examples.origin (Examples.pointerAt 0 0) this)
    as (_ & _ & _ & Hkeep & Hdrop & _).
  split.
  - apply Hkeep. split; [right; left; reflexivity |].
    constructor; [| constructor]. cbn. unfold Spec.distance; cbn.
    apply Rsqr_incr_0_var; [| apply sqrt_pos].
    rewrite Rsqr_sqrt by (unfold Rsqr; lra). unfold Rsqr. lra.
  - apply Hdrop; [left; reflexivity |].
    left. cbn. unfold Spec.distance; cbn.
    replace ((0 - (0 - 0))²)%R with 0%R by (unfold Rsqr; lra).
    rewrite Rplus_0_r, sqrt_0. lra.
Defined.

(** C10: with the eraser active, a pointer-down and a pointer-move do
    nothing but erase (or nothing at all, for a move without the primary
    button), and erasing replaces the committed strokes by those it keeps:
    the redo stack is as it was.  Pressing a pen clears the redo stack. *)
Theorem C10_erasing_keeps_the_redo_stack
    (platform : Platform) (rect : DOMRect) (e : PointerEvent) (this : State) :
  activeTool this = Eraser ->
  onPointerDown rect e this = erase rect e this /\
  (onPointerMove platform rect e this = erase rect e this \/
   onPointerMove platform rect e this = this) /\
  redoStack (erase rect e this) = redoStack this /\
  redoStack (onPointerDown rect e this) = redoStack this /\
  redoStack (onPointerMove platform rect e this) = redoStack this /\
  (forall pen, activeTool pen <> Eraser -> redoStack (onPointerDown rect e pen) = []).
Proof.
  intros Htool.
  assert (Hdown : onPointerDown rect e this = erase rect e this)
    by (unfold onPointerDown; now rewrite Htool).
  assert (Hmove : onPointerMove platform rect e this = erase rect e this \/
                  onPointerMove platform rect e this = this).
  { unfold onPointerMove. rewrite Htool. cbn [is_eraser].
    destruct (buttons e =? 1)%Z; [now left | now right]. }
  split; [exact Hdown |]. split; [exact Hmove |]. split; [reflexivity |].
  split; [now rewrite Hdown |]. split.
  - destruct Hmove as [-> | ->]; reflexivity.
  - intros pen Hpen. unfold onPointerDown.
    destruct (activeTool pen); try contradiction; reflexivity.
Qed.

(** The inputs of C10 exist: an eraser over a store with an undone
    stroke. *)
Lemma C10_erasing_witness :
  let this := Examples.stateWith [Examples.strokeA] [Examples.strokeB] Eraser in
  redoStack (onPointerDown Examples.origin (Examples.pointerAt 0 0) this)
    = [Examples.strokeB] /\
  redoStack (onPointerMove Examples.platform Examples.origin (Examples.pointerAt 0 0) this)
    = [Examples.strokeB].
Proof.
  intros this.
  destruct (C10_erasing_keeps_the_redo_stack Examples.platform Examples.origin
              (Examples.pointerAt 0 0) this eq_refl)
    as (_ & _ & _ & Hdown & Hmove & _).
  split; [exact Hdown | exact Hmove].
Defined.

(** *** A tap *)

(** C8, what the code does: a pointer-down directly followed by a
    pointer-up commits a stroke with the one sample, and its path is the
    preview path as the pointer-down found it.  No preview is computed, so
    on a component whose preview path is empty the committed path is the
    empty string. *)
Theorem C8_tap_commits_an_empty_path
    (rect : DOMRect) (e : PointerEvent) (this : State) :
  activeTool this <> Eraser ->
  previewPath this = EmptyString ->
  exists stroke,
    allStrokes (onPointerUp (onPointerDown rect e this)) = allStrokes this ++ [stroke] /\
    DrawingStroke.points stroke
      = [mkSample (clientX e - left rect) (clientY e - top rect) (pressure e)] /\
    DrawingStroke.path stroke = EmptyString.
Proof.
  intros Htool Hpreview. unfold onPointerUp, onPointerDown.
  destruct (activeTool this) eqn:E; try contradiction; cbn; rewrite E; cbn;
    eexists; (split; [reflexivity |]); split; try reflexivity; exact Hpreview.
Qed.

(** The inputs of C8 exist: a tap on the component as constructed. *)
Lemma C8_tap_witness :
  exists stroke,
    allStrokes (onPointerUp (onPointerDown Examples.origin (Examples.pointerAt 3 4) initial))
      = [stroke] /\
    DrawingStroke.points stroke = [mkSample (3 - 0) (4 - 0) 0.5] /\
    DrawingStroke.path stroke = EmptyString.
Proof.
  apply (C8_tap_commits_an_empty_path Examples.origin (Examples.pointerAt 3 4) initial).
  - discriminate.
  - reflexivity.
Defined.

(** *** Import *)

(** Importing the paths onto some strokes appends what importing them onto
    nothing gives. *)
Lemma importPath_fold (paths : list DOM.Element) (strokes : list DrawingStroke.t) :
  fold_left DrawingService.importPath paths strokes
  = strokes ++ fold_left DrawingService.importPath paths [].
Proof.
  revert strokes. induction paths as [| path paths IH]; intros strokes; cbn [fold_left].
  - now rewrite app_nil_r.
  - rewrite (IH (DrawingService.importPath strokes path)).
    rewrite (IH (DrawingService.importPath [] path)).
    rewrite app_assoc. f_equal.
    unfold DrawingService.importPath, Array_push.
    destruct (DOM.getAttribute path "d") as [[| c d] |]; cbn;
      now rewrite ?app_nil_r.
Qed.

(** One stroke per path with path data, in document order, the path data
    kept as the stroke's path. *)
Lemma importPath_paths (paths : list DOM.Element) :
  map (fun s => Some (DrawingStroke.path s)) (fold_left DrawingService.importPath paths [])
  = map (fun path => DOM.getAttribute path "d") (filter Spec.has_path_data paths).
Proof.
  induction paths as [| path paths IH]; [reflexivity |].
  cbn [fold_left filter]. rewrite importPath_fold, map_app, IH.
  unfold Spec.has_path_data, DrawingService.importPath, Array_push.
  destruct (DOM.getAttribute path "d") as [[| c d] |] eqn:E; cbn; try reflexivity.
  now rewrite E.
Qed.

(** The earlier revision of the component imports on top of the committed
    strokes, and leaves the store alone when the text holds no [svg]
    element. *)
Lemma legacy_import_keeps_committed
    (platform : Platform) (svgContent : string) (this : State) :
  allStrokes (LegacyComponent.parseSVGContent platform svgContent this)
  = allStrokes this ++ DrawingService.parseSVGContent platform svgContent.
Proof.
  unfold LegacyComponent.parseSVGContent, DrawingService.parseSVGContent.
  destruct (DOM.Document_querySelector _ _) as [svgElement |];
    [| now rewrite app_nil_r].
  cbn [allStrokes set_redoStack]. rewrite <- importPath_fold.
  generalize (DOM.querySelectorAll svgElement "path"). intros paths.
  revert this. induction paths as [| path paths IH]; intros this; [reflexivity |].
  cbn [fold_left]. now rewrite IH.
Qed.

Lemma legacy_import_invalid
    (platform : Platform) (svgContent : string) (this : State) :
  DOM.Document_querySelector (parseFromString platform svgContent) "svg" = None ->
  LegacyComponent.parseSVGContent platform svgContent this = this.
Proof. intros H. unfold LegacyComponent.parseSVGContent. now rewrite H. Qed.

(** C2, what the code does: [loadSVGContent] replaces the committed
    strokes by the strokes of the document, so a text without an [svg]
    element, or a document without [path] elements, leaves no committed
    stroke at all, whatever was committed before. *)
Theorem C2_import_replaces_the_committed_strokes
    (platform : Platform) (svgContent : string) (this : State) :
  allStrokes (loadSVGContent platform svgContent this)
    = DrawingService.parseSVGContent platform svgContent /\
  redoStack (loadSVGContent platform svgContent this) = [] /\
  (DOM.Document_querySelector (parseFromString platform svgContent) "svg" = None ->
   allStrokes (loadSVGContent platform svgContent this) = []) /\
  (forall svgElement,
     DOM.Document_querySelector (parseFromString platform svgContent) "svg"
       = Some svgElement ->
     DOM.querySelectorAll svgElement "path" = [] ->
     allStrokes (loadSVGContent platform svgContent this) = []).
Proof.
  split; [reflexivity |]. split; [reflexivity |].
  unfold loadSVGContent, DrawingService.parseSVGContent. cbn [allStrokes set_allStrokes set_redoStack].
  split.
  - intros H. now rewrite H.
  - intros svgElement H Hpaths. now rewrite H, Hpaths.
Qed.

(** C2 at a concrete store: importing a text that is not SVG into a store
    with a committed stroke leaves the store without strokes, where the
    earlier revision leaves it as it was. *)
Lemma C2_import_witness :
  let this := Examples.stateWith [Examples.strokeA] [] Pen1 in
  allStrokes (loadSVGContent Examples.platform "not svg" this) = [] /\
  allStrokes (LegacyComponent.parseSVGContent Examples.platform "not svg" this)
    = [Examples.strokeA].
Proof.
  intros this. split.
  - apply (C2_import_replaces_the_committed_strokes Examples.platform "not svg" this).
    reflexivity.
  - reflexivity.
Defined.

End StoreFacts.

(** ** The path codec: encoding *)

Module EncodeFacts.

Import JS DrawingService.

Section WithPlatform.

Variable platform : Platform.

Let toString := Number_toString platform.

(** The strings that one round of the [reduce] adds. *)
Lemma pushSegment_strings (acc : list PathItem) (p next : Vec2) (i : nat) (arr : list Vec2) :
  nth ((i + 1) mod List.length arr) arr p = next ->
  map (PathItem_toString platform) (pushSegment acc p i arr)
  = map (PathItem_toString platform) acc
    ++ Spec.quadratic toString p (Spec.midpoint p next).
Proof.
  intros Hnext. unfold pushSegment. destruct p as [x0 y0]. rewrite Hnext.
  destruct next as [x1 y1]. now rewrite map_app.
Qed.

(** The [reduce] from index [length before] on: each point is paired with
    the point after it, the last one with the first of the array. *)
Lemma reduce_from_ring (first : Vec2) (before rest : list Vec2) (acc : list PathItem) :
  hd first (before ++ rest) = first ->
  map (PathItem_toString platform)
    (reduce_from pushSegment (before ++ rest) (List.length before) rest acc)
  = map (PathItem_toString platform) acc
    ++ flat_map (fun step => Spec.quadratic toString (fst step)
                               (Spec.midpoint (fst step) (snd step)))
         (combine rest (tl rest ++ [first])).
Proof.
  revert before acc. induction rest as [| p rest IH]; intros before acc Hfirst.
  - cbn. now rewrite app_nil_r.
  - cbn [reduce_from].
    replace (before ++ p :: rest) with ((before ++ [p]) ++ rest) in *
      by now rewrite <- app_assoc.
    replace (S (List.length before)) with (List.length (before ++ [p]))
      by (rewrite length_app; cbn; lia).
    rewrite IH by assumption.
    assert (Hnext : nth ((List.length before + 1) mod List.length ((before ++ [p]) ++ rest))
                      ((before ++ [p]) ++ rest) p
                    = hd first (rest ++ [first])).
    { destruct rest as [| q rest].
      - rewrite app_nil_r in *. rewrite length_app. cbn [List.length].
        rewrite Nat.Div0.mod_same.
        destruct before; cbn in *; assumption.
      - rewrite Nat.mod_small by (rewrite !length_app; cbn; lia).
        rewrite app_nth2 by (rewrite length_app; cbn; lia).
        rewrite length_app. cbn [List.length].
        now replace (List.length before + 1 - (List.length before + 1)) with 0 by lia. }
    rewrite (pushSegment_strings acc p _ _ _ Hnext).
    rewrite <- app_assoc. f_equal.
    destruct rest as [| q rest]; reflexivity.
Qed.

Lemma getSvgPathFromStroke_encode (stroke : list Vec2) :
  getSvgPathFromStroke platform stroke = Spec.encode toString stroke.
Proof.
  destruct stroke as [| [x y] rest]; [reflexivity |].
  unfold getSvgPathFromStroke, Spec.encode, Array_join, Array_push, Array_reduce.
  f_equal. rewrite map_app.
  rewrite (reduce_from_ring (x, y) [] ((x, y) :: rest)) by reflexivity.
  cbn [map PathItem_toString Spec.next_in_ring tl fst snd]. reflexivity.
Qed.

End WithPlatform.

(** The path of a triangle, number by number. *)
Example getSvgPathFromStroke_triangle (platform : Platform) :
  let toString := Number_toString platform in
  getSvgPathFromStroke platform [(0, 0); (10, 0); (10, 10)]%R
  = String.concat " "
      [ "M"; toString 0; toString 0; "Q";
        toString 0; toString 0; toString ((0 + 10) / 2); toString ((0 + 0) / 2);
        toString 10; toString 0; toString ((10 + 10) / 2); toString ((0 + 10) / 2);
        toString 10; toString 10; toString ((10 + 0) / 2); toString ((10 + 0) / 2);
        "Z" ]%string%R.
Proof. reflexivity. Qed.

(** C1: the path of no points is the empty string; the path of a ring
    with at least one point is a moveto to the first point, then for each
    ring point in turn, the last one paired with the first, one quadratic
    segment with the point as control point and the midpoint between it
    and the next point as end point, then the close-path; a ring of one
    point gives [M x y Q x y x y Z]. *)
Theorem C1_getSvgPathFromStroke_encodes_the_ring (platform : Platform) :
  let toString := Number_toString platform in
  getSvgPathFromStroke platform [] = EmptyString /\
  (forall stroke, getSvgPathFromStroke platform stroke = Spec.encode toString stroke) /\
  (forall first rest,
     exists segments,
       getSvgPathFromStroke platform (first :: rest)
       = String.concat " "
           (["M"%string; toString (fst first); toString (snd first); "Q"%string]
            ++ segments ++ ["Z"%string]) /\
       List.length segments = 4 * List.length (first :: rest)) /\
  (forall x y,
     getSvgPathFromStroke platform [(x, y)]
     = String.concat " "
         [ "M"%string; toString x; toString y; "Q"%string;
           toString x; toString y; toString x; toString y; "Z"%string ]).
Proof.
  intros toString. split; [reflexivity |].
  split; [apply getSvgPathFromStroke_encode |]. split.
  - intros first rest. rewrite getSvgPathFromStroke_encode.
    eexists. split; [reflexivity |].
    cbn [Spec.next_in_ring].
    assert (H : List.length (rest ++ [first]) = List.length (first :: rest))
      by (rewrite length_app; cbn; lia).
    revert H. generalize (rest ++ [first]). generalize (first :: rest).
    induction l as [| p l IH]; intros [| q l'] H; try discriminate; [reflexivity |].
    cbn [combine flat_map]. rewrite length_app, IH by (cbn in H; lia).
    cbn. lia.
  - intros x y. rewrite getSvgPathFromStroke_encode.
    unfold Spec.encode. cbn.
    now replace ((x + x) / 2)%R with x by lra; replace ((y + y) / 2)%R with y by lra.
Qed.

End EncodeFacts.

(** ** Strings *)

Module StringFacts.

Local Open Scope string_scope.

Lemma length_append (a b : string) :
  String.length (a ++ b) = String.length a + String.length b.
Proof. induction a as [| c a IH]; cbn; [reflexivity | now rewrite IH]. Qed.

Lemma append_empty_r (a : string) : a ++ "" = a.
Proof. induction a as [| c a IH]; cbn; [reflexivity | now rewrite IH]. Qed.

Lemma append_assoc (a b c : string) : (a ++ b) ++ c = a ++ (b ++ c).
Proof. induction a as [| x a IH]; cbn; [reflexivity | now rewrite IH]. Qed.

Lemma all_chars_append (cls : ascii -> bool) (a b : string) :
  Spec.all_chars cls (a ++ b) = Spec.all_chars cls a && Spec.all_chars cls b.
Proof.
  induction a as [| c a IH]; cbn; [reflexivity |].
  now rewrite IH, andb_assoc.
Qed.

End StringFacts.

(** ** Regular expressions *)

Module RegExpFacts.

Import RegExp.
Local Open Scope string_scope.

Lemma consume_Some (c : ascii) (r : option (string * string)) (m rest : string) :
  consume c r = Some (m, rest) ->
  exists m', m = String c m' /\ r = Some (m', rest).
Proof.
  destruct r as [[m' rest'] |]; cbn; [| discriminate].
  intros [= <- <-]. now exists m'.
Qed.

Lemma or_else_Some {A : Type} (r alt : option A) (x : A) :
  or_else r alt = Some x -> r = Some x \/ (r = None /\ alt = Some x).
Proof. destruct r; cbn; intros H; [now left | now right]. Qed.

Section Soundness.

Variable cls : ascii -> bool.
Variable k : string -> option (string * string).
Variable Q : string -> Prop.
Hypothesis k_sound : forall s m rest, k s = Some (m, rest) -> s = m ++ rest /\ Q m.

(** What [star] matches: characters of the class, then what the
    continuation matches. *)
Lemma star_sound (s m rest : string) :
  star cls k s = Some (m, rest) ->
  s = m ++ rest /\
  exists a b, m = a ++ b /\ Spec.all_chars cls a = true /\ Q b.
Proof.
  revert m rest. induction s as [| c s IH]; intros m rest H; cbn in H.
  - apply k_sound in H as [-> HQ]. split; [reflexivity |].
    now exists "", m.
  - assert (Hk : k (String c s) = Some (m, rest) ->
                 String c s = m ++ rest /\
                 exists a b, m = a ++ b /\ Spec.all_chars cls a = true /\ Q b).
    { intros Hk. apply k_sound in Hk as [-> HQ]. split; [reflexivity |].
      now exists "", m. }
    destruct (cls c) eqn:Hc; [| now apply Hk].
    apply or_else_Some in H as [H | [_ H]]; [| now apply Hk].
    apply consume_Some in H as [m' [-> H]].
    apply IH in H as [-> (a & b & -> & Ha & HQ)].
    split; [reflexivity |].
    exists (String c a), b. cbn. now rewrite Hc, Ha.
Qed.

(** [star] succeeds wherever its continuation does. *)
Lemma star_complete (s : string) :
  k s <> None -> star cls k s <> None.
Proof.
  intros Hk. destruct s as [| c s]; cbn; [assumption |].
  destruct (cls c); [| assumption].
  destruct (consume c (star cls k s)); cbn; [discriminate | assumption].
Qed.

End Soundness.

(** A match is a prefix of the text, and a text that the pattern
    describes. *)
Lemma exec_at_sound (p : pattern) (s m rest : string) :
  exec_at p s = Some (m, rest) -> s = m ++ rest /\ Spec.matches p m.
Proof.
  revert s m rest. induction p as [| [cls q] p IH]; intros s m rest H.
  - cbn in H. injection H as <- <-. now split.
  - cbn [exec_at] in H. cbn [Spec.matches]. destruct q.
    + destruct s as [| c s]; [discriminate |].
      destruct (cls c) eqn:Hc; [| discriminate].
      apply consume_Some in H as [m' [-> H]]. apply IH in H as [-> Hm].
      split; [reflexivity |].
      exists (String c ""), m'. cbn. now rewrite Hc.
    + assert (Hskip : exec_at p s = Some (m, rest) ->
                      s = m ++ rest /\
                      exists a b, m = a ++ b /\ Spec.all_chars cls a = true /\
                                  Spec.quantity Optional (String.length a) /\
                                  Spec.matches p b).
      { intros Hp. apply IH in Hp as [-> Hm]. split; [reflexivity |].
        exists "", m. cbn. auto. }
      destruct s as [| c s]; [now apply Hskip |].
      destruct (cls c) eqn:Hc; [| now apply Hskip].
      apply or_else_Some in H as [H | [_ H]]; [| now apply Hskip].
      apply consume_Some in H as [m' [-> H]]. apply IH in H as [-> Hm].
      split; [reflexivity |].
      exists (String c ""), m'. cbn. now rewrite Hc.
    + apply (star_sound cls (exec_at p) (Spec.matches p) IH) in H
        as [-> (a & b & -> & Ha & Hb)].
      split; [reflexivity |]. exists a, b. cbn. auto.
    + destruct s as [| c s]; [discriminate |].
      destruct (cls c) eqn:Hc; [| discriminate].
      apply consume_Some in H as [m' [-> H]].
      apply (star_sound cls (exec_at p) (Spec.matches p) IH) in H
        as [-> (a & b & -> & Ha & Hb)].
      split; [reflexivity |].
      exists (String c a), b. cbn. rewrite Hc, Ha. repeat split; auto. lia.
Qed.

(** *** The global scan *)

Lemma scan_skip (p : pattern) (stepped s : string) :
  scan p (String.length stepped) (stepped ++ s) = scan p 0 s.
Proof. induction stepped as [| c stepped IH]; [reflexivity | exact IH]. Qed.

(** After a match that is not empty the scan resumes behind it. *)
Lemma scan_match (p : pattern) (s m rest : string) :
  exec_at p s = Some (m, rest) -> m <> "" ->
  scan p 0 s = m :: scan p 0 rest.
Proof.
  intros H Hm. destruct (exec_at_sound p s m rest H) as [-> _].
  destruct m as [| c m]; [contradiction |].
  change (String c m ++ rest) with (String c (m ++ rest)) in *.
  cbn [scan]. rewrite H. f_equal.
  replace (String.length (String c m) - 1) with (String.length m) by (cbn; lia).
  apply scan_skip.
Qed.

(** Where the pattern does not match the scan moves on by a character. *)
Lemma scan_miss (p : pattern) (c : ascii) (s : string) :
  exec_at p (String c s) = None -> scan p 0 (String c s) = scan p 0 s.
Proof. intros H. cbn [scan]. now rewrite H. Qed.

Lemma weave_cons (c : ascii) (gap : string) (gaps tokens : list string) :
  Spec.weave (String c gap :: gaps) tokens = String c (Spec.weave (gap :: gaps) tokens).
Proof. destruct tokens; reflexivity. Qed.

Section Scan.

Variable p : pattern.
Variable skipped : ascii -> bool.

Hypothesis match_not_empty : forall s rest, exec_at p s <> Some ("", rest).
Hypothesis miss_skipped : forall c s, exec_at p (String c s) = None -> skipped c = true.

(** The scan cuts the text into the matches, in their order in the text,
    and the gaps before, between and after them; every match is a text of
    the pattern and every gap is made of skipped characters. *)
Lemma scan_weave (s : string) :
  exists gaps,
    List.length gaps = S (List.length (scan p 0 s)) /\
    Spec.weave gaps (scan p 0 s) = s /\
    Forall (fun gap => Spec.all_chars skipped gap = true) gaps /\
    Forall (Spec.matches p) (scan p 0 s).
Proof.
  remember (String.length s) as n eqn:Hn. revert s Hn.
  induction n as [n IH] using lt_wf_ind. intros s Hn.
  destruct (exec_at p s) as [[m rest] |] eqn:E.
  - assert (Hm : m <> "") by (intros ->; now apply (match_not_empty s rest)).
    destruct (exec_at_sound p s m rest E) as [Hs Hmatch].
    rewrite (scan_match p s m rest E Hm).
    destruct (IH (String.length rest)) with (s := rest)
      as (gaps & Hlen & Hweave & Hgaps & Htokens); [| reflexivity |].
    { subst. rewrite StringFacts.length_append. destruct m; [contradiction | cbn; lia]. }
    exists ("" :: gaps). cbn [List.length Spec.weave]. rewrite Hweave, Hlen.
    repeat split; auto.
  - destruct s as [| c s].
    + exists [""]. cbn. rewrite E. repeat split; auto.
    + rewrite (scan_miss p c s E).
      destruct (IH (String.length s)) with (s := s)
        as (gaps & Hlen & Hweave & Hgaps & Htokens); [subst; cbn; lia | reflexivity |].
      destruct gaps as [| gap gaps]; [discriminate |].
      exists (String c gap :: gaps). rewrite weave_cons, Hweave.
      repeat split; auto.
      inversion Hgaps; subst. constructor; [| assumption].
      cbn. rewrite (miss_skipped c s E). assumption.
Qed.

End Scan.

End RegExpFacts.

(** ** The path codec: decoding *)

Module DecodeFacts.

Import JS RegExp Numeric DrawingService RegExpFacts StringFacts.
Local Open Scope string_scope.

(** The character classes of the regular expression are disjoint, and no
    white space is in them. *)
Lemma classes_disjoint (c : ascii) :
  (is_digit c = true -> is_sign c = false /\ is_dot c = false /\ is_white_space c = false) /\
  (is_dot c = true -> is_sign c = false /\ is_white_space c = false) /\
  (is_sign c = true -> is_white_space c = false).
Proof.
  destruct c as [b0 b1 b2 b3 b4 b5 b6 b7].
  destruct b0, b1, b2, b3, b4, b5, b6, b7; vm_compute; intuition congruence.
Qed.

Lemma dot_not_digit (c : ascii) : is_dot c = true -> is_digit c = false.
Proof.
  intros H. destruct (is_digit c) eqn:Hd; [| reflexivity].
  apply classes_disjoint in Hd as (_ & Hd & _). congruence.
Qed.

Lemma take_sign_sign (c : ascii) (s : string) :
  is_sign c = true -> exists neg, take_sign (String c s) = (neg, s).
Proof.
  unfold is_sign, take_sign. intros H.
  destruct (Ascii.eqb c "-"); [now exists true |].
  destruct (Ascii.eqb c "+"); [now exists false | discriminate].
Qed.

Lemma take_sign_other (c : ascii) (s : string) :
  is_sign c = false -> take_sign (String c s) = (false, String c s).
Proof.
  unfold is_sign, take_sign. intros H. apply orb_false_iff in H as [-> ->].
  reflexivity.
Qed.

Lemma take_digits_append (ds rest : string) :
  Spec.all_chars is_digit ds = true ->
  take_digits (ds ++ rest)
  = (ds ++ fst (take_digits rest), snd (take_digits rest)).
Proof.
  induction ds as [| c ds IH]; cbn; intros H.
  - now destruct (take_digits rest).
  - apply andb_true_iff in H as [Hc Hds]. rewrite Hc, (IH Hds). reflexivity.
Qed.

Lemma take_digits_all (ds : string) :
  Spec.all_chars is_digit ds = true -> take_digits ds = (ds, "").
Proof.
  intros H. rewrite <- (append_empty_r ds) at 1.
  rewrite (take_digits_append ds "" H). cbn. now rewrite append_empty_r.
Qed.

Lemma take_digits_other (c : ascii) (s : string) :
  is_digit c = false -> take_digits (String c s) = ("", String c s).
Proof. intros H. cbn. now rewrite H. Qed.

Lemma one_char (cls : ascii -> bool) (a : string) :
  Spec.all_chars cls a = true -> String.length a <= 1 ->
  a = "" \/ exists c, a = String c "" /\ cls c = true.
Proof.
  destruct a as [| c [| c' a]]; cbn; intros H Hlen; [now left | right | lia].
  exists c. split; [reflexivity |]. now apply andb_true_iff in H as [-> _].
Qed.

(** Every text of the regular expression is a numeric token. *)
Lemma regex_numeric_token (m : string) :
  Spec.matches regex m -> Spec.is_numeric_token m = true.
Proof.
  intros (a1 & b1 & -> & Ha1 & Hn1 & a2 & b2 & -> & Ha2 & _ &
          a3 & b3 & -> & Ha3 & Hn3 & a4 & b4 & -> & Ha4 & Hn4 & ->).
  cbn in Hn1, Hn3, Hn4. rewrite append_empty_r.
  assert (Hcore : exists c core, a2 ++ a3 ++ a4 = String c core /\ is_sign c = false).
  { destruct a2 as [| c a2].
    - destruct (one_char is_dot a3 Ha3 Hn3) as [-> | [c [-> Hc]]].
      + destruct a4 as [| c a4]; [cbn in Hn4; lia |].
        exists c, a4. split; [reflexivity |].
        cbn in Ha4. apply andb_true_iff in Ha4 as [Hc _].
        now apply classes_disjoint in Hc.
      + exists c, a4. split; [reflexivity |]. now apply classes_disjoint in Hc.
    - exists c, (a2 ++ a3 ++ a4). split; [reflexivity |].
      cbn in Ha2. apply andb_true_iff in Ha2 as [Hc _].
      now apply classes_disjoint in Hc. }
  assert (Hsign : exists neg, take_sign (a1 ++ a2 ++ a3 ++ a4) = (neg, a2 ++ a3 ++ a4)).
  { destruct (one_char is_sign a1 Ha1 Hn1) as [-> | [c [-> Hc]]].
    - destruct Hcore as (c & core & -> & Hc). exists false. now apply take_sign_other.
    - now apply take_sign_sign. }
  destruct Hsign as [neg Hsign]. unfold Spec.is_numeric_token. rewrite Hsign.
  rewrite (take_digits_append a2 (a3 ++ a4) Ha2).
  assert (Hne : String.eqb a4 "" = false) by (destruct a4; [cbn in Hn4; lia | reflexivity]).
  destruct (one_char is_dot a3 Ha3 Hn3) as [-> | [c [-> Hc]]].
  - cbn [append]. rewrite (take_digits_all a4 Ha4). cbn [fst snd].
    destruct a4; [discriminate |]. now destruct a2.
  - change (String c "" ++ a4) with (String c a4).
    rewrite take_digits_other by now apply dot_not_digit.
    cbn [fst snd]. rewrite Hc, (take_digits_all a4 Ha4), Hne. reflexivity.
Qed.

(** [parseFloat] of a numeric token is a number, never [NaN]. *)
Lemma numeric_token_parses (t : string) :
  Spec.is_numeric_token t = true -> exists v, parseFloat t = Some v.
Proof.
  intros H. unfold parseFloat, StrDecimalLiteral.
  assert (Htrim : trim_start t = t).
  { destruct t as [| c t]; [reflexivity |]. cbn.
    destruct (is_white_space c) eqn:Hw; [| reflexivity].
    exfalso. unfold Spec.is_numeric_token in H.
    assert (Hs : is_sign c = false)
      by (destruct (is_sign c) eqn:Hs; [apply classes_disjoint in Hs; congruence | reflexivity]).
    assert (Hd : is_digit c = false)
      by (destruct (is_digit c) eqn:Hd;
          [apply classes_disjoint in Hd as (_ & _ & Hd); congruence | reflexivity]).
    assert (Hdot : is_dot c = false)
      by (destruct (is_dot c) eqn:Hdot;
          [apply classes_disjoint in Hdot as (_ & Hdot); congruence | reflexivity]).
    rewrite (take_sign_other c t Hs), (take_digits_other c t Hd), Hdot in H.
    discriminate. }
  rewrite Htrim. unfold Spec.is_numeric_token in H.
  destruct (take_sign t) as [neg s]. destruct (take_digits s) as [ip rest].
  destruct rest as [| c r].
  - destruct ip as [| d ip]; [discriminate |]. cbn. eauto.
  - apply andb_true_iff in H as [Hc H]. rewrite Hc.
    destruct (take_digits r) as [fp rest'].
    destruct fp as [| d fp]; [discriminate |].
    destruct ip; cbn; eauto.
Qed.

(** The regular expression never matches the empty text. *)
Lemma regex_match_not_empty (s rest : string) : exec_at regex s <> Some ("", rest).
Proof.
  intros H. apply exec_at_sound in H as [_ H].
  apply regex_numeric_token in H. discriminate.
Qed.

(** The regular expression matches wherever a digit stands. *)
Lemma regex_miss_no_digit (c : ascii) (s : string) :
  exec_at regex (String c s) = None -> negb (is_digit c) = true.
Proof.
  intros H. destruct (is_digit c) eqn:Hc; [exfalso | reflexivity].
  destruct (classes_disjoint c) as [Hd _].
  destruct (Hd Hc) as (Hsign & Hdot & _).
  revert H. unfold regex. cbn [exec_at]. rewrite Hsign.
  apply star_complete. cbn [exec_at]. rewrite Hdot, Hc.
  set (k := fun rest : string => Some ("", rest)).
  assert (Hstar : star is_digit k s <> None) by (apply star_complete; discriminate).
  destruct (star is_digit k s) as [[m rest] |]; cbn; [discriminate | contradiction].
Qed.

(** *** The pairing loop *)


Lemma pair_up_short {A : Type} (l : list A) :
  List.length l <= 1 -> Spec.pair_up l = [].
Proof. destruct l as [| x [| y l]]; cbn; intros H; [reflexivity | reflexivity | lia]. Qed.

(** From index [i] on, with a next element, a list is its elements at [i]
    and [i + 1] and what comes after them. *)
Lemma skipn_two {A : Type} (l : list A) (i : nat) :
  i + 1 < List.length l ->
  exists x y, nth_error l i = Some x /\ nth_error l (i + 1) = Some y /\
              skipn i l = x :: y :: skipn (i + 2) l.
Proof.
  revert l. induction i as [| i IH]; intros l H.
  - destruct l as [| x [| y l]]; cbn in H; try lia. now exists x, y.
  - destruct l as [| z l]; cbn in H; [lia |].
    destruct (IH l) as (x & y & Hx & Hy & Hskip); [lia |].
    now exists x, y.
Qed.

Lemma parsed_nth (numbers : list string) (values : list number) (i : nat) (v : number) :
  map parseFloat numbers = map Some values ->
  nth_error values i = Some v ->
  parseFloat (nth i numbers "") = Some v.
Proof.
  intros Hmap Hv.
  assert (H : nth_error (map parseFloat numbers) i = Some (Some v))
    by (rewrite Hmap; now apply map_nth_error).
  rewrite nth_error_map in H.
  destruct (nth_error numbers i) as [t |] eqn:E; [| discriminate].
  injection H as H. now rewrite (nth_error_nth numbers i "" E).
Qed.

(** The loop pairs the values from index [i] on; the bound says that the
    rounds left are enough to reach the end of the array. *)
Lemma pairLoop_pair_up (numbers : list string) (values : list number) :
  map parseFloat numbers = map Some values ->
  forall rounds i points,
    List.length numbers <= i + 2 * rounds + 1 ->
    pairLoop rounds numbers i points
    = (points ++ map (fun xy => mkSample (fst xy) (snd xy) 0.5)
                   (Spec.pair_up (skipn i values)))%list.
Proof.
  intros Hmap.
  assert (Hlen : List.length values = List.length numbers)
    by (rewrite <- (length_map Some values), <- Hmap; apply length_map).
  assert (Hend : forall i points, List.length numbers <= i + 1 ->
            points = (points ++ map (fun xy => mkSample (fst xy) (snd xy) 0.5)
                                  (Spec.pair_up (skipn i values)))%list).
  { intros i points H. rewrite pair_up_short; [now rewrite app_nil_r |].
    rewrite length_skipn. lia. }
  induction rounds as [| rounds IH]; intros i points Hrounds; cbn [pairLoop].
  - apply Hend. lia.
  - destruct (Z.of_nat i <? Z.of_nat (List.length numbers) - 1)%Z eqn:Htest.
    + apply Z.ltb_lt in Htest.
      destruct (skipn_two values i) as (x & y & Hx & Hy & Hskip); [lia |].
      rewrite (parsed_nth numbers values i x Hmap Hx).
      rewrite (parsed_nth numbers values (i + 1) y Hmap Hy).
      rewrite IH by lia. rewrite Hskip. unfold Array_push. cbn [Spec.pair_up map].
      now rewrite <- app_assoc.
    + apply Z.ltb_ge in Htest. apply Hend. lia.
Qed.

(** More rounds than the loop needs change nothing: the loop ends by its
    test. *)
Lemma pairLoop_rounds (numbers : list string) (rounds i : nat) (points : list Sample) :
  List.length numbers <= i + 2 * rounds + 1 ->
  forall more, pairLoop (rounds + more) numbers i points = pairLoop rounds numbers i points.
Proof.
  revert i points. induction rounds as [| rounds IH]; intros i points H more.
  - cbn [plus pairLoop]. destruct more; [reflexivity |]. cbn [pairLoop].
    destruct (Z.of_nat i <? Z.of_nat (List.length numbers) - 1)%Z eqn:Htest;
      [apply Z.ltb_lt in Htest; lia | reflexivity].
  - cbn [plus pairLoop].
    destruct (Z.of_nat i <? Z.of_nat (List.length numbers) - 1)%Z; [| reflexivity].
    apply IH. lia.
Qed.

(** The numeric tokens of a text are numbers to [parseFloat]. *)
Lemma tokens_parse (tokens : list string) :
  Forall (fun t => Spec.is_numeric_token t = true) tokens ->
  exists values, map parseFloat tokens = map Some values.
Proof.
  induction 1 as [| t tokens Ht _ [values IH]]; [now exists [] |].
  destruct (numeric_token_parses t Ht) as [v Hv].
  exists (v :: values). cbn. now rewrite Hv, IH.
Qed.

Lemma parseFloat_digit (t : string) (z : Z) :
  StrDecimalLiteral t = Some (mkDecimal false z 0) -> parseFloat t = Some (IZR z).
Proof.
  intros H. unfold parseFloat. rewrite H.
  unfold decimal_value. cbn [option_map negative mantissa exponent10 powerRZ].
  apply f_equal. lra.
Qed.

(** The scan on a text with signs, dots and letters in odd places. *)
Example scan_odd_places :
  scan regex 0 "M1 2 Q3.5 -4 5. +-6 1.2.3 .5-.7e5 12abc007 Z"
  = ["1"; "2"; "3.5"; "-4"; "5"; "-6"; "1.2"; ".3"; ".5"; "-.7"; "5"; "12"; "007"].
Proof. reflexivity. Qed.

Example String_match_no_number : String_match "M Q Z +-. e" regex = None.
Proof. reflexivity. Qed.

Example StrDecimalLiteral_examples :
  StrDecimalLiteral "  -12.50e-3xyz" = Some (mkDecimal true 1250 (-5)) /\
  StrDecimalLiteral "007" = Some (mkDecimal false 7 0) /\
  StrDecimalLiteral "5." = Some (mkDecimal false 5 0) /\
  StrDecimalLiteral "-.7" = Some (mkDecimal true 7 (-1)) /\
  StrDecimalLiteral "." = None /\
  StrDecimalLiteral "" = None /\
  StrDecimalLiteral "none" = None.
Proof. repeat split; reflexivity. Qed.

(** [parseFloat] of a run of digits is the integer they write. *)
Lemma parseFloat_digits (ds : string) :
  Spec.all_chars is_digit ds = true -> ds <> "" ->
  parseFloat ds = Some (IZR (digits_value 0 ds)).
Proof.
  intros Hds Hne. destruct ds as [| c ds]; [contradiction |].
  apply parseFloat_digit. unfold StrDecimalLiteral.
  pose proof Hds as Hc. cbn in Hc. apply andb_true_iff in Hc as [Hc _].
  destruct (classes_disjoint c) as [Hd _]. destruct (Hd Hc) as (Hsign & _ & Hw).
  cbn [trim_start]. rewrite Hw, (take_sign_other c ds Hsign), (take_digits_all _ Hds).
  cbn. now rewrite append_empty_r.
Qed.

(** The matches of the regular expression in a text: numeric tokens, in
    their order in the text, with no digit left between them. *)
Lemma regex_scan (d : string) :
  let tokens := scan regex 0 d in
  (exists gaps,
     List.length gaps = S (List.length tokens) /\
     Spec.weave gaps tokens = d /\
     Forall (fun gap => Spec.has_no_digit gap = true) gaps) /\
  Forall (fun t => Spec.is_numeric_token t = true) tokens.
Proof.
  intros tokens.
  destruct (scan_weave regex (fun c => negb (is_digit c))
              regex_match_not_empty regex_miss_no_digit d)
    as (gaps & Hlen & Hweave & Hgaps & Htokens).
  split; [now exists gaps |].
  apply (Forall_impl _ regex_numeric_token Htokens).
Qed.

Lemma extractPointsFromPath_pairs (d : string) (values : list number) :
  map parseFloat (scan regex 0 d) = map Some values ->
  extractPointsFromPath d
  = map (fun xy => mkSample (fst xy) (snd xy) 0.5) (Spec.pair_up values).
Proof.
  intros Hmap. unfold extractPointsFromPath, String_match.
  destruct (scan regex 0 d) as [| t tokens] eqn:E.
  - destruct values; [reflexivity | discriminate].
  - rewrite (pairLoop_pair_up _ values Hmap) by lia. reflexivity.
Qed.

Lemma extractPointsFromPath_example :
  extractPointsFromPath "M1 2 Q3 4 5 6 Z"
  = [mkSample 1 2 0.5; mkSample 3 4 0.5; mkSample 5 6 0.5].
Proof.
  apply (extractPointsFromPath_pairs _ [1; 2; 3; 4; 5; 6]%R).
  change (scan regex 0 "M1 2 Q3 4 5 6 Z") with ["1"; "2"; "3"; "4"; "5"; "6"].
  cbn [map].
  rewrite (parseFloat_digit "1" 1 eq_refl), (parseFloat_digit "2" 2 eq_refl),
    (parseFloat_digit "3" 3 eq_refl), (parseFloat_digit "4" 4 eq_refl),
    (parseFloat_digit "5" 5 eq_refl), (parseFloat_digit "6" 6 eq_refl).
  reflexivity.
Qed.

(** Importing a document with a filled path and a path without data. *)
Example parseSVGContent_two_paths :
  parseSVGContent Examples.platform "two"
  = [ DrawingStroke.mk [mkSample 1 2 0.5; mkSample 3 4 0.5; mkSample 5 6 0.5]
        "M1 2 Q3 4 5 6 Z" "#000000" (Some 1%R) "#000000" (Some 0%R) ].
Proof.
  change (parseSVGContent Examples.platform "two")
    with (Array_push []
            (DrawingStroke.mk (extractPointsFromPath "M1 2 Q3 4 5 6 Z") "M1 2 Q3 4 5 6 Z"
               "#000000" (parseFloat "1") "#000000" (parseFloat "0"))).
  rewrite extractPointsFromPath_example.
  rewrite (parseFloat_digit "1" 1 eq_refl), (parseFloat_digit "0" 0 eq_refl).
  reflexivity.
Qed.

End DecodeFacts.

(** ** Library options *)

Module OptionsFacts.

Import JS Easings DrawingService.

Lemma lookup_None {V : Type} (table : list (string * V)) (key : string) :
  lookup table key = None <-> ~ In key (map fst table).
Proof.
  induction table as [| [k v] table IH]; cbn; [tauto |].
  destruct (String.eqb_spec k key) as [-> | Hne].
  - split; [discriminate | intros H; contradiction H; now left].
  - rewrite IH. tauto.
Qed.

(** [obj[key]] is an own property exactly for the keys of the object. *)
Lemma get_Own {V : Type} (obj : list (string * V)) (key : string) :
  In key (Object_keys obj) <-> exists v, get obj key = Own v.
Proof.
  unfold get, Object_keys. destruct (lookup obj key) as [v |] eqn:E.
  - split; [now exists v |]. intros _.
    destruct (in_dec string_dec key (map fst obj)) as [H | H]; [assumption |].
    apply lookup_None in H. congruence.
  - apply lookup_None in E. split; [contradiction |].
    intros [v Hv]. destruct (existsb _ _); discriminate.
Qed.

(** [obj[key]] is [undefined] exactly for the names that neither the
    object nor [Object.prototype] has. *)
Lemma get_Undefined {V : Type} (obj : list (string * V)) (key : string) :
  get obj key = Undefined <-> ~ In key (Object_keys obj) /\ ~ In key Object_prototype.
Proof.
  unfold get, Object_keys. destruct (lookup obj key) as [v |] eqn:E.
  - split; [discriminate |]. intros [H _].
    apply lookup_None in H. congruence.
  - apply lookup_None in E.
    destruct (existsb (String.eqb key) Object_prototype) eqn:Hp.
    + split; [discriminate |]. intros [_ H]. contradiction H.
      apply existsb_exists in Hp as [name [Hin Heq]].
      apply String.eqb_eq in Heq. now subst.
    + split; [| reflexivity]. intros _. split; [exact E |].
      intros Hin. assert (existsb (String.eqb key) Object_prototype = true); [| congruence].
      apply existsb_exists. exists key. split; [exact Hin | apply String.eqb_refl].
Qed.

(** C7, as the claim states it, fails: a tool whose easing name the
    catalog does not hold is not rejected; [getLibOptions] returns the
    options, the easing being [undefined]. *)
Lemma C7_unknown_easing_is_not_rejected :
  get EASINGS (ToolConfig.easing Examples.bogusTool) = Undefined /\
  getLibOptions Examples.bogusTool
  = StrokeOptions.mk 16 0.5 0.5 0.23 Undefined
      (TaperOptions.mk 0 (Own linear) true)
      (TaperOptions.mk 0 (Own linear) true).
Proof. split; reflexivity. Qed.

(** C7, amended: [getLibOptions] checks nothing and raises nothing: for
    every tool configuration it returns the options in which each of the
    three easings is what reading the catalog under the configured name
    gives, the catalog's function when the name is one of its keys and
    [undefined] when neither the catalog nor [Object.prototype] has the
    name; the preview path is computed from these options as they are. *)
Theorem C7_getLibOptions_looks_up_without_checking (tool : ToolConfig.t) :
  let options := getLibOptions tool in
  StrokeOptions.easing options = get EASINGS (ToolConfig.easing tool) /\
  TaperOptions.easing (StrokeOptions.start options)
    = get EASINGS (Taper.easing (ToolConfig.start tool)) /\
  TaperOptions.easing (StrokeOptions.end_ options)
    = get EASINGS (Taper.easing (ToolConfig.end_ tool)) /\
  (forall name, In name (Object_keys EASINGS) <-> exists f, get EASINGS name = Own f) /\
  (forall name, get EASINGS name = Undefined <->
                ~ In name (Object_keys EASINGS) /\ ~ In name Object_prototype) /\
  (forall platform points,
     generatePreviewPath platform points tool
     = getSvgPathFromStroke platform (getStroke platform points options)).
Proof.
  intros options. split; [reflexivity |]. split; [reflexivity |]. split; [reflexivity |].
  split; [intros name; apply get_Own |].
  split; [intros name; apply get_Undefined | reflexivity].
Qed.

(** C7 at concrete inputs: a name of the catalog resolves, and the tool
    with the unknown name gets [undefined]. *)
Lemma C7_getLibOptions_witness :
  (exists f, get EASINGS "easeOutQuad" = Own f) /\
  StrokeOptions.easing (getLibOptions Examples.bogusTool) = Undefined.
Proof.
  destruct (C7_getLibOptions_looks_up_without_checking Examples.bogusTool)
    as (Heasing & _ & _ & Hknown & Hunknown & _).
  split.
  - apply Hknown. cbn. tauto.
  - rewrite Heasing. apply Hunknown. split; cbn; intuition discriminate.
Defined.

End OptionsFacts.

(** ** The easing catalog, entry by entry *)

Module EasingShape.

Import JS Easings NumberFacts.
Local Open Scope R_scope.

Lemma Math_pow_4 (b : number) : Math_pow b 4 = b * b * b * b.
Proof. rewrite (Math_pow_IZR b 4). simpl. lra. Qed.

Lemma Math_pow_5 (b : number) : Math_pow b 5 = b * b * b * b * b.
Proof. rewrite (Math_pow_IZR b 5). simpl. lra. Qed.

(** Decide the tests [t < 0.5], [t === 0] and [t === 1] of an entry. *)
Ltac branches :=
  unfold lt, strict_eq;
  repeat match goal with
         | |- context [Rlt_dec ?a ?b] => destruct (Rlt_dec a b)
         | |- context [Req_dec_T ?a ?b] => destruct (Req_dec_T a b)
         end.

Ltac powers := rewrite ?Math_pow_3, ?Math_pow_4, ?Math_pow_5.

Lemma Math_pow_2_bounds (e : number) : e <= 0 -> 0 < Math_pow 2 e <= 1.
Proof.
  intros He. rewrite Math_pow_Rpower by lra. split.
  - unfold Rpower. apply exp_pos.
  - rewrite <- (Rpower_O 2) by lra. apply Rle_Rpower; lra.
Qed.

(** X1: every entry of the easing catalog outside the Sine family, the
    sixteen entries [linear], Quad, Cubic, Quart, Quint and Expo, maps 0
    to 0 and 1 to 1.  The Sine entries are left out: their endpoints go
    through [Math.cos] and [Math.sin] at multiples of [Math.PI], where
    the exact values of the model are not those of the program
    ([easeInSine(1)] is [1 - Math.cos(Math.PI / 2)], a little under 1). *)
Theorem X1_easings_outside_the_sine_family_fix_the_endpoints :
  let entries := filter (fun entry => negb (Spec.ends_with "Sine" (fst entry))) EASINGS in
  Object_keys entries
  = [ "linear"; "easeInQuad"; "easeOutQuad"; "easeInOutQuad";
      "easeInCubic"; "easeOutCubic"; "easeInOutCubic";
      "easeInQuart"; "easeOutQuart"; "easeInOutQuart";
      "easeInQuint"; "easeOutQuint"; "easeInOutQuint";
      "easeInExpo"; "easeOutExpo"; "easeInOutExpo" ]%string /\
  Forall (fun entry => snd entry 0 = 0 /\ snd entry 1 = 1) entries.
Proof.
  intros entries. split; [reflexivity |]. subst entries.
  change (filter (fun entry => negb (Spec.ends_with "Sine" (fst entry))) EASINGS)
    with [ ("linear"%string, linear);
           ("easeInQuad"%string, easeInQuad);
           ("easeOutQuad"%string, easeOutQuad);
           ("easeInOutQuad"%string, easeInOutQuad);
           ("easeInCubic"%string, easeInCubic);
           ("easeOutCubic"%string, easeOutCubic);
           ("easeInOutCubic"%string, easeInOutCubic);
           ("easeInQuart"%string, easeInQuart);
           ("easeOutQuart"%string, easeOutQuart);
           ("easeInOutQuart"%string, easeInOutQuart);
           ("easeInQuint"%string, easeInQuint);
           ("easeOutQuint"%string, easeOutQuint);
           ("easeInOutQuint"%string, easeInOutQuint);
           ("easeInExpo"%string, easeInExpo);
           ("easeOutExpo"%string, easeOutExpo);
           ("easeInOutExpo"%string, easeInOutExpo) ].
  repeat apply Forall_cons; try apply Forall_nil; cbn [snd];
    try (split; [apply EasingFacts.easeInExpo_at_0 | apply EasingFacts.easeInExpo_at_1]);
    try (split; [apply EasingFacts.easeOutExpo_at_0 | apply EasingFacts.easeOutExpo_at_1]);
    try (split; [apply EasingFacts.easeInOutExpo_at_0 | apply EasingFacts.easeInOutExpo_at_1]);
    split;
    unfold linear, easeInQuad, easeOutQuad, easeInOutQuad, easeInCubic, easeOutCubic,
      easeInOutCubic, easeInQuart, easeOutQuart, easeInOutQuart, easeInQuint,
      easeOutQuint, easeInOutQuint;
    branches; powers; lra.
Qed.

Lemma unit_pow (u : number) (n : nat) : 0 <= u <= 1 -> 0 <= u ^ n <= 1.
Proof.
  intros Hu. split; [apply pow_le; lra |].
  rewrite <- (pow1 n). apply pow_incr. lra.
Qed.

(** The powers up to the fifth of [u], when [u] is in the unit interval,
    are in it. *)
Ltac unit_powers u :=
  try (assert (0 <= u <= 1) as Hunit by lra;
       pose proof (unit_pow u 2 Hunit); pose proof (unit_pow u 3 Hunit);
       pose proof (unit_pow u 4 Hunit); pose proof (unit_pow u 5 Hunit);
       clear Hunit).

Lemma sine_range (t : number) :
  0 <= t <= 1 ->
  0 <= easeInSine t <= 1 /\ 0 <= easeOutSine t <= 1 /\ 0 <= easeInOutSine t <= 1.
Proof.
  intros Ht. pose proof PI_RGT_0 as Hpi.
  assert (Hangle : 0 <= t * PI / 2 <= PI / 2) by (split; nra).
  unfold easeInSine, easeOutSine, easeInOutSine, Math_cos, Math_sin, Math_PI.
  pose proof (COS_bound (t * PI / 2)). pose proof (SIN_bound (t * PI / 2)).
  pose proof (COS_bound (PI * t)).
  pose proof (cos_ge_0 (t * PI / 2) ltac:(lra) ltac:(lra)).
  pose proof (sin_ge_0 (t * PI / 2) ltac:(lra) ltac:(lra)).
  repeat split; lra.
Qed.

Lemma expo_range (t : number) :
  0 <= t <= 1 ->
  0 <= easeInExpo t <= 1 /\ 0 <= easeOutExpo t <= 1 /\ 0 <= easeInOutExpo t <= 1.
Proof.
  intros Ht. unfold easeInExpo, easeOutExpo, easeInOutExpo.
  repeat split; branches; try lra;
    try (pose proof (Math_pow_2_bounds (10 * t - 10) ltac:(lra)));
    try (pose proof (Math_pow_2_bounds (-10 * t) ltac:(lra)));
    try (pose proof (Math_pow_2_bounds (20 * t - 10) ltac:(lra)));
    try (pose proof (Math_pow_2_bounds (-20 * t + 10) ltac:(lra)));
    lra.
Qed.

(** X4: every entry of the easing catalog maps the unit interval into the
    unit interval. *)
Theorem X4_every_easing_stays_in_the_unit_interval (t : number) :
  0 <= t <= 1 ->
  Forall (fun entry => 0 <= snd entry t <= 1) EASINGS.
Proof.
  intros Ht. destruct (sine_range t Ht) as (Hs1 & Hs2 & Hs3).
  destruct (expo_range t Ht) as (He1 & He2 & He3).
  unfold EASINGS. repeat apply Forall_cons; try apply Forall_nil; cbn [snd];
    try assumption;
    unfold linear, easeInQuad, easeOutQuad, easeInOutQuad, easeInCubic, easeOutCubic,
      easeInOutCubic, easeInQuart, easeOutQuart, easeInOutQuart, easeInQuint,
      easeOutQuint, easeInOutQuint;
    branches; powers;
    unit_powers t; unit_powers (1 - t); unit_powers (2 * t); unit_powers (-2 * t + 2);
    simpl pow in *; lra.
Qed.

(** X4 at one point: a quarter of the way, the quintic ease-in-out is
    within the unit interval. *)
Lemma X4_unit_interval_witness : 0 <= easeInOutQuint 0.25 <= 1.
Proof.
  assert (H : 0 <= 0.25 <= 1) by lra.
  pose proof (X4_every_easing_stays_in_the_unit_interval 0.25 H) as Hall.
  rewrite Forall_forall in Hall.
  apply (Hall ("easeInOutQuint"%string, easeInOutQuint)).
  cbn. tauto.
Defined.

End EasingShape.

(** ** The stroke store over sequences of operations *)

Module HistoryFacts.

Import JS DrawingComponent ArrayFacts NumberFacts StoreFacts Scenarios.

Lemma undo_redo (this : State) : redoStack this <> [] -> undo (redo this) = this.
Proof.
  intros H. destruct (Array_last_push (redoStack this)) as [E | [r [s E]]];
    [contradiction |].
  rewrite (redo_push this r s E).
  rewrite (undo_push _ (allStrokes this) s) by reflexivity.
  destruct this; cbn in *. now subst.
Qed.

Lemma undo_history (this : State) : history (undo this) = history this.
Proof.
  unfold history. destruct (Array_last_push (allStrokes this)) as [E | [c [s E]]].
  - now rewrite (undo_empty this E).
  - rewrite (undo_push this c s E), E. unfold Array_push. cbn.
    rewrite rev_app_distr. cbn. now rewrite <- app_assoc.
Qed.

Lemma redo_history (this : State) : history (redo this) = history this.
Proof.
  unfold history. destruct (Array_last_push (redoStack this)) as [E | [r [s E]]].
  - now rewrite (redo_empty this E).
  - rewrite (redo_push this r s E), E. unfold Array_push. cbn.
    rewrite rev_app_distr. cbn. now rewrite <- app_assoc.
Qed.

(** X6: [undo] and [redo] move strokes between the two stacks and never
    lose, add or reorder one: the committed strokes followed by the redo
    stack read backwards stay the same list; and [undo] after [redo] gives
    back the state when there was something to redo. *)
Theorem X6_undo_and_redo_keep_the_history (this : State) :
  history (undo this) = history this /\
  history (redo this) = history this /\
  (redoStack this <> [] -> undo (redo this) = this).
Proof.
  split; [apply undo_history |]. split; [apply redo_history | apply undo_redo].
Qed.

Lemma X6_history_witness :
  let this := Examples.stateWith [Examples.strokeA] [Examples.strokeB] Pen1 in
  history (undo this) = [Examples.strokeA; Examples.strokeB] /\
  undo (redo this) = this.
Proof.
  intros this. destruct (X6_undo_and_redo_keep_the_history this) as (Hu & _ & Hur).
  split; [rewrite Hu; reflexivity | apply Hur; discriminate].
Defined.

Lemma undo_length (this : State) :
  List.length (allStrokes (undo this)) = List.length (allStrokes this) - 1.
Proof.
  destruct (Array_last_push (allStrokes this)) as [E | [c [s E]]].
  - now rewrite (undo_empty this E), E.
  - rewrite (undo_push this c s E), E. unfold Array_push. cbn.
    rewrite length_app. cbn. lia.
Qed.

Lemma undo_iter_length (n : nat) (this : State) :
  List.length (allStrokes (Nat.iter n undo this)) = List.length (allStrokes this) - n.
Proof.
  induction n as [| n IH]; [cbn; lia |].
  change (Nat.iter (S n) undo this) with (undo (Nat.iter n undo this)).
  rewrite undo_length, IH. lia.
Qed.

(** X7: undoing [n] times and then redoing [n] times gives back the state,
    as long as [n] strokes are committed; undoing every committed stroke
    leaves none committed and all of them on the redo stack. *)
Theorem X7_undo_n_times_then_redo_n_times (n : nat) (this : State) :
  n <= List.length (allStrokes this) ->
  Nat.iter n redo (Nat.iter n undo this) = this /\
  history (Nat.iter n undo this) = history this /\
  List.length (allStrokes (Nat.iter n undo this)) = List.length (allStrokes this) - n.
Proof.
  intros Hn. split; [| split; [| apply undo_iter_length]].
  - induction n as [| n IH]; [reflexivity |].
    rewrite Nat.iter_succ_r. change (Nat.iter (S n) undo this) with (undo (Nat.iter n undo this)).
    rewrite redo_undo; [apply IH; lia |].
    intros E. pose proof (undo_iter_length n this) as Hlen.
    rewrite E in Hlen. cbn [List.length] in Hlen. lia.
  - clear Hn. induction n as [| n IH]; [reflexivity |].
    change (Nat.iter (S n) undo this) with (undo (Nat.iter n undo this)).
    now rewrite undo_history.
Qed.

Lemma X7_undo_redo_witness :
  let this := Examples.stateWith [Examples.strokeA; Examples.strokeB] [] Pen1 in
  Nat.iter 2 redo (Nat.iter 2 undo this) = this /\
  List.length (allStrokes (Nat.iter 2 undo this)) = 0.
Proof.
  intros this.
  destruct (X7_undo_n_times_then_redo_n_times 2 this) as (Hid & _ & Hlen);
    [cbn; lia |].
  split; [exact Hid | exact Hlen].
Defined.

End HistoryFacts.

(** ** Erasing, again and again *)

Module EraseFacts.

Import JS DrawingComponent NumberFacts StoreFacts Scenarios.

Lemma filter_idempotent {A : Type} (f : A -> bool) (l : list A) :
  filter f (filter f l) = filter f l.
Proof.
  induction l as [| x l IH]; [reflexivity |]. cbn.
  destruct (f x) eqn:E; cbn; [rewrite E; now f_equal | exact IH].
Qed.

Lemma filter_commute {A : Type} (f g : A -> bool) (l : list A) :
  filter f (filter g l) = filter g (filter f l).
Proof.
  induction l as [| x l IH]; [reflexivity |]. cbn.
  destruct (g x) eqn:Eg, (f x) eqn:Ef; cbn; rewrite ?Eg, ?Ef, IH; reflexivity.
Qed.

Lemma filter_all {A : Type} (f : A -> bool) (l : list A) :
  (forall x, In x l -> f x = true) -> filter f l = l.
Proof.
  induction l as [| x l IH]; intros H; [reflexivity |]. cbn.
  rewrite (H x) by now left. f_equal. apply IH. intros y Hy. apply H. now right.
Qed.

Lemma filter_length_le {A : Type} (f : A -> bool) (l : list A) :
  List.length (filter f l) <= List.length l.
Proof. induction l as [| x l IH]; cbn; [lia |]. destruct (f x); cbn; lia. Qed.

(** X8: erasing twice at the same place is erasing once, erasing at two
    places gives the same store in either order, and erasing only ever
    removes committed strokes. *)
Theorem X8_erase_is_idempotent_and_commutes
    (rect1 rect2 : DOMRect) (e1 e2 : PointerEvent) (this : State) :
  erase rect1 e1 (erase rect1 e1 this) = erase rect1 e1 this /\
  erase rect1 e1 (erase rect2 e2 this) = erase rect2 e2 (erase rect1 e1 this) /\
  List.length (allStrokes (erase rect1 e1 this)) <= List.length (allStrokes this) /\
  incl (allStrokes (erase rect1 e1 this)) (allStrokes this).
Proof.
  unfold erase, getCoords, set_allStrokes, Array_filter. cbn.
  split; [now rewrite filter_idempotent |].
  split; [now rewrite filter_commute |].
  split; [apply filter_length_le | apply incl_filter].
Qed.

Lemma shouldEraseStroke_no_points (s : DrawingStroke.t) (x y size : number) :
  DrawingStroke.points s = [] -> DrawingService.shouldEraseStroke s x y size = false.
Proof. intros H. unfold DrawingService.shouldEraseStroke. now rewrite H. Qed.

Lemma shouldEraseStroke_no_size (s : DrawingStroke.t) (x y size : number) :
  (size <= 0)%R -> DrawingService.shouldEraseStroke s x y size = false.
Proof.
  intros H. apply shouldEraseStroke_clear. apply Forall_forall. intros p _.
  unfold Spec.distance. pose proof (sqrt_pos ((s_x p - x)² + (s_y p - y)²)). lra.
Qed.

(** X9: a committed stroke without samples survives every erase, and an
    eraser whose size is zero or less erases nothing. *)
Theorem X9_what_the_eraser_cannot_remove
    (rect : DOMRect) (e : PointerEvent) (this : State) :
  (forall s, In s (allStrokes this) -> DrawingStroke.points s = [] ->
             In s (allStrokes (erase rect e this))) /\
  ((EraserConfig.size (Tools.eraser (tools this)) <= 0)%R -> erase rect e this = this).
Proof.
  split.
  - intros s Hin Hpoints. unfold erase, getCoords. cbn. apply filter_In.
    split; [exact Hin |]. now rewrite shouldEraseStroke_no_points.
  - intros Hsize. unfold erase, getCoords, Array_filter.
    rewrite filter_all; [now destruct this |].
    intros s _. now rewrite shouldEraseStroke_no_size.
Qed.

Lemma X9_eraser_witness :
  In blankStroke
    (allStrokes (erase Examples.origin (Examples.pointerAt 0 0)
                   (Examples.stateWith [blankStroke; Examples.strokeA] [] Eraser))) /\
  erase Examples.origin (Examples.pointerAt 0 0)
    (withEraserSize 0 (Examples.stateWith [Examples.strokeA] [] Eraser))
  = withEraserSize 0 (Examples.stateWith [Examples.strokeA] [] Eraser).
Proof.
  split.
  - apply (X9_what_the_eraser_cannot_remove Examples.origin (Examples.pointerAt 0 0)
             (Examples.stateWith [blankStroke; Examples.strokeA] [] Eraser));
      [left; reflexivity | reflexivity].
  - apply (X9_what_the_eraser_cannot_remove Examples.origin (Examples.pointerAt 0 0)
             (withEraserSize 0 (Examples.stateWith [Examples.strokeA] [] Eraser))).
    cbn. lra.
Defined.

End EraseFacts.

(** ** Gestures *)

Module GestureFacts.

Import JS DrawingComponent NumberFacts StoreFacts Scenarios.

Lemma drawingTool_pen (this : State) (tool : ToolConfig.t) :
  drawingTool (tools this) (activeTool this) = Some tool ->
  is_eraser (activeTool this) = false.
Proof. destruct (activeTool this); cbn; [reflexivity .. | discriminate]. Qed.

(** One pointer-move of a pen. *)
Lemma onPointerMove_pen (platform : Platform) (rect : DOMRect) (e : PointerEvent)
    (this : State) (tool : ToolConfig.t) :
  drawingTool (tools this) (activeTool this) = Some tool ->
  onPointerMove platform rect e this
  = if pressed e then
      set_previewPath
        (DrawingService.generatePreviewPath platform
           (currentPoints this ++ [sampleOf rect e]) tool)
        (set_currentPoints (currentPoints this ++ [sampleOf rect e]) this)
    else this.
Proof.
  intros Htool. unfold onPointerMove, pressed.
  destruct (buttons e =? 1)%Z; cbn [negb]; [| reflexivity].
  now rewrite (drawingTool_pen this tool Htool), Htool.
Qed.

(** The pointer-moves of a pen: the pressed ones add their samples in
    order, and the preview is the path of all the samples so far; without
    a pressed move the preview stays what it was. *)
Lemma drag_pen (platform : Platform) (rect : DOMRect) (moves : list PointerEvent)
    (this : State) (tool : ToolConfig.t) :
  drawingTool (tools this) (activeTool this) = Some tool ->
  let points := currentPoints this ++ map (sampleOf rect) (filter pressed moves) in
  drag platform rect moves this
  = set_previewPath
      (match filter pressed moves with
       | [] => previewPath this
       | _ => DrawingService.generatePreviewPath platform points tool
       end)
      (set_currentPoints points this).
Proof.
  revert this. induction moves as [| e moves IH]; intros this Htool points.
  - subst points. cbn. rewrite app_nil_r. now destruct this.
  - change (drag platform rect (e :: moves) this)
      with (drag platform rect moves (onPointerMove platform rect e this)).
    rewrite (onPointerMove_pen platform rect e this tool Htool).
    subst points. cbn [filter].
    destruct (pressed e) eqn:Hpressed.
    + rewrite IH by exact Htool.
      cbn [currentPoints previewPath set_currentPoints set_previewPath map].
      rewrite <- app_assoc. cbn [app].
      destruct (filter pressed moves); reflexivity.
    + now rewrite IH by exact Htool.
Qed.

(** X10: a pen gesture, that is a pointer-down, pointer-moves and a
    pointer-up, commits exactly one stroke: its samples are those of the
    pointer-down and of the moves with the primary button down, in order,
    its path is the preview path of all these samples (or, when no such
    move happened, the preview path the gesture found), and its colours
    are the active pen's; the redo stack and the stroke in progress end
    empty and the rest of the component is as before. *)
Theorem X10_pen_gesture_commits_one_stroke
    (platform : Platform) (rect : DOMRect) (down : PointerEvent)
    (moves : list PointerEvent) (this : State) (tool : ToolConfig.t) :
  drawingTool (tools this) (activeTool this) = Some tool ->
  let points := sampleOf rect down :: map (sampleOf rect) (filter pressed moves) in
  let path :=
    match filter pressed moves with
    | [] => previewPath this
    | _ => DrawingService.generatePreviewPath platform points tool
    end in
  gesture platform rect down moves this
  = mkState (isDragging this) (sidebarOpen this) (isSending this)
      (allStrokes this ++ [strokeOf points path tool]) []
      (activeTool this) [] EmptyString (tools this).
Proof.
  intros Htool points path. unfold gesture.
  assert (Hdown : onPointerDown rect down this
                  = set_redoStack [] (set_currentPoints [sampleOf rect down] this)).
  { unfold onPointerDown. now rewrite (drawingTool_pen this tool Htool). }
  rewrite Hdown, (drag_pen platform rect moves _ tool) by exact Htool.
  unfold onPointerUp.
  cbn [currentPoints activeTool tools previewPath allStrokes
       set_redoStack set_currentPoints set_previewPath set_allStrokes
       isDragging sidebarOpen isSending redoStack app List.length Nat.ltb Nat.leb andb].
  rewrite (drawingTool_pen this tool Htool), Htool. cbn [negb]. reflexivity.
Qed.

(** X10 on the component as constructed: a stroke of three samples with
    the first pen. *)
Lemma X10_pen_gesture_witness :
  let moves := [Examples.pointerAt 10 0; Examples.pointerAt 10 10] in
  List.length
    (allStrokes (gesture Examples.platform Examples.origin (Examples.pointerAt 0 0)
                   moves initial)) = 1.
Proof.
  intros moves.
  rewrite (X10_pen_gesture_commits_one_stroke Examples.platform Examples.origin
             (Examples.pointerAt 0 0) moves initial (Tools.pen1 (tools initial)) eq_refl).
  reflexivity.
Defined.

Lemma filter_filter {A : Type} (f g : A -> bool) (l : list A) :
  filter f (filter g l) = filter (fun x => g x && f x) l.
Proof.
  induction l as [| x l IH]; [reflexivity |]. cbn.
  destruct (g x); cbn; [destruct (f x); now rewrite IH | exact IH].
Qed.

Lemma erase_erasedAt (rect : DOMRect) (e : PointerEvent) (this : State) :
  erase rect e this
  = set_allStrokes
      (filter (fun s => negb (erasedAt rect (EraserConfig.size (Tools.eraser (tools this))) e s))
         (allStrokes this))
      this.
Proof. reflexivity. Qed.

(** The pointer-moves of the eraser: a stroke stays when no pressed move
    erases it. *)
Lemma drag_eraser (platform : Platform) (rect : DOMRect) (moves : list PointerEvent)
    (this : State) :
  activeTool this = Eraser ->
  drag platform rect moves this
  = set_allStrokes
      (filter (fun s =>
                 forallb (fun e => negb (erasedAt rect
                                           (EraserConfig.size (Tools.eraser (tools this))) e s))
                   (filter pressed moves))
         (allStrokes this))
      this.
Proof.
  revert this. induction moves as [| e moves IH]; intros this Htool.
  - cbn. rewrite EraseFacts.filter_all by reflexivity. now destruct this.
  - change (drag platform rect (e :: moves) this)
      with (drag platform rect moves (onPointerMove platform rect e this)).
    unfold onPointerMove. fold (pressed e). cbn [filter].
    destruct (pressed e); cbn [negb]; [| now apply IH].
    rewrite Htool. cbn [is_eraser]. rewrite IH by exact Htool.
    rewrite erase_erasedAt. cbn [allStrokes tools set_allStrokes].
    rewrite filter_filter. reflexivity.
Qed.

(** X11: a gesture with the eraser commits nothing: it keeps, in their
    order, exactly the committed strokes that the eraser erases neither
    where the pointer went down nor at any move with the primary button
    down, leaves the redo stack as it was, and ends with no stroke in
    progress. *)
Theorem X11_eraser_gesture_filters_the_strokes
    (platform : Platform) (rect : DOMRect) (down : PointerEvent)
    (moves : list PointerEvent) (this : State) :
  activeTool this = Eraser ->
  let size := EraserConfig.size (Tools.eraser (tools this)) in
  gesture platform rect down moves this
  = mkState (isDragging this) (sidebarOpen this) (isSending this)
      (filter (fun s => forallb (fun e => negb (erasedAt rect size e s))
                          (down :: filter pressed moves))
         (allStrokes this))
      (redoStack this) (activeTool this) [] EmptyString (tools this).
Proof.
  intros Htool size. unfold gesture.
  assert (Hdown : onPointerDown rect down this = erase rect down this)
    by (unfold onPointerDown; now rewrite Htool).
  rewrite Hdown, drag_eraser by exact Htool.
  rewrite erase_erasedAt. unfold onPointerUp.
  cbn [currentPoints activeTool tools previewPath allStrokes
       set_redoStack set_currentPoints set_previewPath set_allStrokes
       isDragging sidebarOpen isSending redoStack].
  assert (He : is_eraser (activeTool this) = true) by now rewrite Htool.
  rewrite He. cbn [negb]. rewrite andb_false_r.
  rewrite filter_filter. cbn [forallb]. reflexivity.
Qed.

(** X11 on a store of two strokes: dragging the eraser from the origin to
    (100, 100) erases both. *)
Lemma X11_eraser_gesture_witness :
  allStrokes
    (gesture Examples.platform Examples.origin (Examples.pointerAt 0 0)
       [Examples.pointerAt 100 100]
       (Examples.stateWith [Examples.strokeA; Examples.strokeB] [Examples.strokeA] Eraser))
  = [] /\
  redoStack
    (gesture Examples.platform Examples.origin (Examples.pointerAt 0 0)
       [Examples.pointerAt 100 100]
       (Examples.stateWith [Examples.strokeA; Examples.strokeB] [Examples.strokeA] Eraser))
  = [Examples.strokeA].
Proof.
  rewrite (X11_eraser_gesture_filters_the_strokes Examples.platform Examples.origin
             (Examples.pointerAt 0 0) [Examples.pointerAt 100 100]
             (Examples.stateWith [Examples.strokeA; Examples.strokeB] [Examples.strokeA] Eraser)
             eq_refl).
  split; [| reflexivity].
  cbn [allStrokes Examples.stateWith filter pressed Examples.pointerAt buttons Z.eqb
       Pos.eqb forallb].
  assert (HA : erasedAt Examples.origin
                 (EraserConfig.size (Tools.eraser (tools
                    (Examples.stateWith [Examples.strokeA; Examples.strokeB]
                       [Examples.strokeA] Eraser))))
                 (Examples.pointerAt 0 0) Examples.strokeA = true).
  { apply shouldEraseStroke_hit. left. cbn. unfold Spec.distance; cbn.
    replace ((0 - (0 - 0))²)%R with 0%R by (unfold Rsqr; lra).
    rewrite Rplus_0_r, sqrt_0. lra. }
  assert (HB : erasedAt Examples.origin
                 (EraserConfig.size (Tools.eraser (tools
                    (Examples.stateWith [Examples.strokeA; Examples.strokeB]
                       [Examples.strokeA] Eraser))))
                 (Examples.pointerAt 100 100) Examples.strokeB = true).
  { apply shouldEraseStroke_hit. left. cbn. unfold Spec.distance; cbn.
    replace ((100 - (100 - 0))²)%R with 0%R by (unfold Rsqr; lra).
    rewrite Rplus_0_r, sqrt_0. lra. }
  rewrite HA, HB. cbn. now rewrite andb_false_r.
Defined.

(** X12: a pointer-up always ends the stroke in progress (no samples, no
    preview left) and never touches the redo stack; it commits nothing
    when no sample was drawn or the eraser is active; a second pointer-up
    changes nothing more. *)
Theorem X12_pointer_up_ends_the_gesture (this : State) :
  currentPoints (onPointerUp this) = [] /\
  previewPath (onPointerUp this) = EmptyString /\
  redoStack (onPointerUp this) = redoStack this /\
  (currentPoints this = [] \/ activeTool this = Eraser ->
   allStrokes (onPointerUp this) = allStrokes this) /\
  onPointerUp (onPointerUp this) = onPointerUp this.
Proof.
  unfold onPointerUp.
  destruct this as [d sb sd committed undone tool points preview ts].
  cbn [currentPoints activeTool tools previewPath allStrokes redoStack].
  destruct points as [| p points], tool; cbn; repeat split; auto;
    intros [H | H]; discriminate.
Qed.

Lemma X12_pointer_up_witness :
  allStrokes (onPointerUp (Examples.stateWith [Examples.strokeA] [] Pen1))
  = [Examples.strokeA].
Proof.
  apply (X12_pointer_up_ends_the_gesture (Examples.stateWith [Examples.strokeA] [] Pen1)).
  now left.
Defined.

(** X13: after clearing the canvas, after pressing a pen and after an
    import there is nothing to redo: [redo] changes nothing; after
    clearing the canvas there is nothing to undo either. *)
Theorem X13_nothing_to_redo
    (platform : Platform) (rect : DOMRect) (e : PointerEvent) (svgContent : string)
    (this : State) :
  redo (clearCanvas this) = clearCanvas this /\
  undo (clearCanvas this) = clearCanvas this /\
  redo (loadSVGContent platform svgContent this) = loadSVGContent platform svgContent this /\
  (activeTool this <> Eraser ->
   redo (onPointerDown rect e this) = onPointerDown rect e this).
Proof.
  split; [now apply redo_empty |]. split; [now apply undo_empty |].
  split; [now apply redo_empty |].
  intros Htool. apply redo_empty. unfold onPointerDown.
  destruct (activeTool this); try contradiction; reflexivity.
Qed.

Lemma X13_nothing_to_redo_witness :
  redo (onPointerDown Examples.origin (Examples.pointerAt 0 0)
          (Examples.stateWith [] [Examples.strokeB] Pen2))
  = onPointerDown Examples.origin (Examples.pointerAt 0 0)
      (Examples.stateWith [] [Examples.strokeB] Pen2).
Proof.
  apply (X13_nothing_to_redo Examples.platform Examples.origin (Examples.pointerAt 0 0)
           "two" (Examples.stateWith [] [Examples.strokeB] Pen2)).
  discriminate.
Defined.

(** X14: resetting the pen settings puts the configuration that the
    component is constructed with back into the slot of the active tool,
    and nothing else changes: the other slots, the eraser and the strokes
    are as before, and with the eraser active nothing changes at all.  A
    second reset changes nothing more, and the easings of the slot that
    was reset resolve to [linear]. *)
Theorem X14_reset_restores_the_active_slot (this : State) :
  drawingTool (tools (resetPenSettings this)) (activeTool this)
    = drawingTool (tools initial) (activeTool this) /\
  (forall other, other <> activeTool this ->
     drawingTool (tools (resetPenSettings this)) other = drawingTool (tools this) other) /\
  Tools.eraser (tools (resetPenSettings this)) = Tools.eraser (tools this) /\
  resetPenSettings this = set_tools (tools (resetPenSettings this)) this /\
  (activeTool this = Eraser -> resetPenSettings this = this) /\
  resetPenSettings (resetPenSettings this) = resetPenSettings this /\
  (forall tool,
     drawingTool (tools (resetPenSettings this)) (activeTool this) = Some tool ->
     StrokeOptions.easing (DrawingService.getLibOptions tool) = Own Easings.linear /\
     TaperOptions.easing (StrokeOptions.start (DrawingService.getLibOptions tool))
       = Own Easings.linear /\
     TaperOptions.easing (StrokeOptions.end_ (DrawingService.getLibOptions tool))
       = Own Easings.linear).
Proof.
  destruct this as [d sb sd committed undone tool points preview [p1 p2 hl er]].
  unfold resetPenSettings.
  cbn [activeTool tools].
  destruct tool; cbn; repeat split; auto;
    try (intros other Hother; destruct other; try reflexivity; contradiction);
    try discriminate;
    try match goal with
        | H : Some _ = Some _ |- _ => injection H as <-; reflexivity
        end.
Qed.

Lemma X14_reset_witness :
  resetPenSettings (Examples.stateWith [] [] Eraser) = Examples.stateWith [] [] Eraser /\
  drawingTool (tools (resetPenSettings (Examples.stateWith [] [] Pen2))) Pen1
  = drawingTool (tools (Examples.stateWith [] [] Pen2)) Pen1.
Proof.
  destruct (X14_reset_restores_the_active_slot (Examples.stateWith [] [] Eraser))
    as (_ & _ & _ & _ & Heraser & _).
  destruct (X14_reset_restores_the_active_slot (Examples.stateWith [] [] Pen2))
    as (_ & Hother & _).
  split; [apply Heraser; reflexivity | apply Hother; discriminate].
Defined.

End GestureFacts.

(** ** Importing documents *)

Module ImportFacts.

Import JS RegExp Numeric DrawingService DrawingComponent.
Import StringFacts RegExpFacts DecodeFacts StoreFacts Scenarios.
Local Open Scope string_scope.

(** A text of the regular expression holds a digit. *)
Lemma regex_match_has_digit (m : string) :
  Spec.matches regex m -> Spec.has_no_digit m = false.
Proof.
  intros (a1 & b1 & -> & _ & _ & a2 & b2 & -> & _ & _ &
          a3 & b3 & -> & _ & _ & a4 & b4 & -> & Ha4 & Hn4 & ->).
  unfold Spec.has_no_digit. rewrite !all_chars_append.
  destruct a4 as [| c a4]; [cbn in Hn4; lia |].
  cbn in Ha4. apply andb_true_iff in Ha4 as [Hc _].
  cbn. rewrite Hc. cbn. now rewrite !andb_false_r.
Qed.

(** In a text without digits the regular expression finds nothing. *)
Lemma scan_no_digit (d : string) :
  Spec.has_no_digit d = true -> scan regex 0 d = [].
Proof.
  assert (Hmiss : forall s, Spec.has_no_digit s = true -> exec_at regex s = None).
  { intros s Hs. destruct (exec_at regex s) as [[m rest] |] eqn:E; [| reflexivity].
    apply exec_at_sound in E as [-> Hm]. apply regex_match_has_digit in Hm.
    unfold Spec.has_no_digit in *. rewrite all_chars_append in Hs.
    apply andb_true_iff in Hs as [Hs _]. congruence. }
  induction d as [| c d IH]; intros Hd.
  - cbn [scan]. now rewrite (Hmiss EmptyString Hd).
  - rewrite (scan_miss regex c d (Hmiss _ Hd)). apply IH.
    cbn in Hd. now apply andb_true_iff in Hd as [_ Hd].
Qed.

Lemma extractPointsFromPath_no_digit (d : string) :
  Spec.has_no_digit d = true -> extractPointsFromPath d = [].
Proof.
  intros Hd. unfold extractPointsFromPath, String_match.
  now rewrite (scan_no_digit d Hd).
Qed.

Lemma extractPointsFromPath_pressure (d : string) :
  Forall (fun p => s_pressure p = 0.5%R) (extractPointsFromPath d).
Proof.
  destruct (regex_scan d) as [_ Htokens].
  destruct (tokens_parse _ Htokens) as [values Hvalues].
  rewrite (extractPointsFromPath_pairs d values Hvalues).
  apply Forall_forall. intros p Hp. apply in_map_iff in Hp as [xy [<- _]]. reflexivity.
Qed.

Lemma importedColour_or_default (attribute : option string) (fallback : string) :
  fallback = "#000000"%string \/ fallback = "none"%string ->
  (if String.eqb (or_default attribute fallback) "none" then "#000000"%string
   else or_default attribute fallback)
  = importedColour attribute.
Proof.
  intros [-> | ->]; destruct attribute as [[| c v] |]; reflexivity.
Qed.

(** One path element: a stroke is pushed when the element has path data,
    and then it is the element's stroke. *)
Lemma importPath_one (strokes : list DrawingStroke.t) (path : DOM.Element) :
  (Spec.has_path_data path = false /\ importPath strokes path = strokes) \/
  (Spec.has_path_data path = true /\
   exists s, importPath strokes path = (strokes ++ [s])%list /\ importedFrom path s).
Proof.
  unfold Spec.has_path_data, importPath.
  destruct (DOM.getAttribute path "d") as [[| c d] |] eqn:E; [now left | right | now left].
  split; [reflexivity |]. eexists. split; [reflexivity |].
  unfold importedFrom. cbn [DrawingStroke.path DrawingStroke.points DrawingStroke.color
                             DrawingStroke.outlineColor].
  rewrite !importedColour_or_default by auto.
  repeat split; [assumption | discriminate].
Qed.

Lemma importPath_all (paths : list DOM.Element) :
  Forall2 importedFrom (filter Spec.has_path_data paths) (fold_left importPath paths []).
Proof.
  induction paths as [| path paths IH]; [constructor |].
  cbn [fold_left filter]. rewrite importPath_fold.
  destruct (importPath_one [] path) as [[Hno ->] | [Hyes [s [-> Hs]]]].
  - now rewrite Hno.
  - rewrite Hyes. constructor; assumption.
Qed.

(** X15: parsing SVG content gives no stroke when the document has no
    [svg] element, and otherwise one stroke for each [path] element below
    the first [svg] element that has non-empty path data, at any depth and
    in document order: the stroke's path is the path data as written, its
    samples are decoded from it, and its colour and outline colour are the
    [fill] and [stroke] attributes, black standing in for a missing or
    empty attribute and for [none]. *)
Theorem X15_one_stroke_per_path_with_data (platform : Platform) (svgContent : string) :
  match DOM.Document_querySelector (parseFromString platform svgContent) "svg" with
  | None => parseSVGContent platform svgContent = []
  | Some svgElement =>
      Forall2 importedFrom
        (filter Spec.has_path_data (DOM.querySelectorAll svgElement "path"))
        (parseSVGContent platform svgContent)
  end.
Proof.
  unfold parseSVGContent.
  destruct (DOM.Document_querySelector _ _) as [svgElement |]; [| reflexivity].
  apply importPath_all.
Qed.

Lemma importedColour_not_none (attribute : option string) :
  importedColour attribute <> "none".
Proof.
  destruct attribute as [[| c v] |]; cbn [importedColour]; try discriminate.
  destruct (String.eqb_spec (String c v) "none"); [discriminate | assumption].
Qed.

Lemma importedFrom_invariants (path : DOM.Element) (s : DrawingStroke.t) :
  importedFrom path s ->
  DrawingStroke.path s <> EmptyString /\
  DrawingStroke.color s <> "none" /\
  DrawingStroke.outlineColor s <> "none" /\
  Forall (fun p => s_pressure p = 0.5%R) (DrawingStroke.points s) /\
  (Spec.has_no_digit (DrawingStroke.path s) = true -> DrawingStroke.points s = []).
Proof.
  intros (_ & Hd & Hpoints & Hcolor & Houtline).
  rewrite Hpoints, Hcolor, Houtline.
  repeat split; auto using importedColour_not_none, extractPointsFromPath_pressure,
    extractPointsFromPath_no_digit.
Qed.

(** X16: every stroke that parsing SVG content gives has a non-empty
    path, a colour and an outline colour other than [none], and samples of
    pressure 0.5 only; a stroke whose path data holds no digit has no
    samples. *)
Theorem X16_imported_strokes_are_well_formed (platform : Platform) (svgContent : string) :
  Forall
    (fun s =>
       DrawingStroke.path s <> EmptyString /\
       DrawingStroke.color s <> "none" /\
       DrawingStroke.outlineColor s <> "none" /\
       Forall (fun p => s_pressure p = 0.5%R) (DrawingStroke.points s) /\
       (Spec.has_no_digit (DrawingStroke.path s) = true -> DrawingStroke.points s = []))
    (parseSVGContent platform svgContent).
Proof.
  unfold parseSVGContent.
  destruct (DOM.Document_querySelector _ _) as [svgElement |]; [| constructor].
  pose proof (importPath_all (DOM.querySelectorAll svgElement "path")) as Hall.
  induction Hall as [| path s paths strokes Hs _ IH]; constructor;
    [now apply (importedFrom_invariants path) | exact IH].
Qed.

(** X16 on a document: the stroke imported from path data without digits
    has no samples. *)
Lemma X16_imported_witness :
  Forall (fun s => DrawingStroke.points s = [])
    (parseSVGContent
       (mkPlatform (Number_toString Examples.platform) (getStroke Examples.platform)
          (fun _ => DOM.Elem "svg" [] [DOM.Elem "path" [("d", "M Z")] []]))
       "any").
Proof.
  pose proof (X16_imported_strokes_are_well_formed
                (mkPlatform (Number_toString Examples.platform) (getStroke Examples.platform)
                   (fun _ => DOM.Elem "svg" [] [DOM.Elem "path" [("d", "M Z")] []]))
                "any") as Hall.
  inversion Hall as [| s strokes (_ & _ & _ & _ & Hblank) _ Heq]; subst; constructor;
    [apply Hblank; reflexivity | constructor].
Defined.

(** X17: the earlier revision of the component imports on top of what is
    committed: its [parseSVGContent] keeps the committed strokes and adds
    the strokes of the document behind them, clearing the redo stack; when
    the document has no [svg] element it changes nothing, the redo stack
    included. *)
Theorem X17_legacy_import_appends
    (platform : Platform) (svgContent : string) (this : State) :
  let after := LegacyComponent.parseSVGContent platform svgContent this in
  allStrokes after = (allStrokes this ++ parseSVGContent platform svgContent)%list /\
  after = set_redoStack (redoStack after) (set_allStrokes (allStrokes after) this) /\
  match DOM.Document_querySelector (parseFromString platform svgContent) "svg" with
  | None => after = this
  | Some _ => redoStack after = []
  end.
Proof.
  intros after. split; [apply legacy_import_keeps_committed |].
  subst after. unfold LegacyComponent.parseSVGContent.
  destruct (DOM.Document_querySelector _ _) as [svgElement |];
    [| split; [now destruct this | reflexivity]].
  split; [| reflexivity].
  generalize (DOM.querySelectorAll svgElement "path"). intros paths.
  assert (H : forall st, fold_left (LegacyComponent.importPath) paths st
                         = set_allStrokes
                             (allStrokes (fold_left LegacyComponent.importPath paths st)) st).
  { induction paths as [| path paths IH]; intros st; [now destruct st |].
    cbn [fold_left]. rewrite IH at 1. reflexivity. }
  rewrite (H this) at 1. reflexivity.
Qed.

End ImportFacts.

(** ** Decoding what was encoded *)

Module RoundTripFacts.

Import JS RegExp Numeric DrawingService.
Import StringFacts RegExpFacts DecodeFacts Scenarios.
Local Open Scope string_scope.

Lemma exec_at_other (c : ascii) (s : string) :
  is_sign c = false -> is_digit c = false -> is_dot c = false ->
  exec_at regex (String c s) = None.
Proof.
  intros Hsign Hdigit Hdot. unfold regex.
  do 4 (cbn [exec_at star]; rewrite ?Hsign, ?Hdigit, ?Hdot). reflexivity.
Qed.

Lemma dot_is_not_digit (c : ascii) : is_digit c = true -> is_dot c = false.
Proof. intros H. now apply classes_disjoint in H. Qed.

Lemma star_stops (cls : ascii -> bool) (k : string -> option (string * string)) (r : string) :
  stops cls r -> star cls k r = k r.
Proof. destruct r as [| c r]; cbn; [reflexivity |]. now intros ->. Qed.

(** [star] takes a whole run of the class when the continuation matches
    behind it. *)
Lemma star_take (cls : ascii -> bool) (k : string -> option (string * string))
    (a r m rest : string) :
  Spec.all_chars cls a = true -> stops cls r -> k r = Some (m, rest) ->
  star cls k (a ++ r) = Some (a ++ m, rest).
Proof.
  intros Ha Hr Hk. induction a as [| c a IH].
  - cbn [append]. now rewrite star_stops.
  - cbn in Ha. apply andb_true_iff in Ha as [Hc Ha].
    cbn [append star]. rewrite Hc, (IH Ha). reflexivity.
Qed.

(** A run of digits, one at least, before a text that starts with no
    digit: [[0-9]+] takes the run. *)
Lemma digits_plus (ds r : string) :
  Spec.all_chars is_digit ds = true -> ds <> EmptyString -> stops is_digit r ->
  exec_at [(is_digit, OneOrMore)] (ds ++ r) = Some (ds, r).
Proof.
  intros Hds Hne Hr. destruct ds as [| c ds]; [contradiction |].
  cbn in Hds. apply andb_true_iff in Hds as [Hc Hds].
  cbn [append exec_at]. rewrite Hc.
  rewrite (star_take is_digit (fun s => Some (EmptyString, s)) ds r EmptyString r
             Hds Hr eq_refl).
  cbn. now rewrite append_empty_r.
Qed.

(** A run of digits, one at least, before a text that starts with neither
    a digit nor a dot: [[0-9]*\.?[0-9]+] takes the run, the star giving
    its last digit back to the plus. *)
Lemma digits_integer (ds r : string) :
  Spec.all_chars is_digit ds = true -> ds <> EmptyString ->
  stops is_digit r -> stops is_dot r ->
  star is_digit (exec_at [(is_dot, Optional); (is_digit, OneOrMore)]) (ds ++ r)
  = Some (ds, r).
Proof.
  intros Hds Hne Hdigit Hdot.
  assert (Hk : exec_at [(is_dot, Optional); (is_digit, OneOrMore)] r = None).
  { destruct r as [| c r]; [reflexivity |]. cbn in Hdigit, Hdot. cbn [exec_at].
    now rewrite Hdot, Hdigit. }
  induction ds as [| c ds IH]; [contradiction |].
  cbn in Hds. apply andb_true_iff in Hds as [Hc Hds].
  cbn [append star]. rewrite Hc.
  destruct ds as [| c' ds].
  - cbn [append]. rewrite star_stops, Hk by assumption. cbn [consume or_else exec_at].
    rewrite (dot_is_not_digit c Hc), Hc.
    rewrite star_stops by assumption. reflexivity.
  - rewrite IH by (assumption || discriminate). reflexivity.
Qed.

(** A dot and a run of digits, one at least: [\.?[0-9]+] takes both. *)
Lemma dot_fraction (d : ascii) (fp rest : string) :
  is_dot d = true -> Spec.all_chars is_digit fp = true -> fp <> EmptyString ->
  stops is_digit rest ->
  exec_at [(is_dot, Optional); (is_digit, OneOrMore)] (String d (fp ++ rest))
  = Some (String d fp, rest).
Proof.
  intros Hd Hfp Hne Hrest.
  change (exec_at [(is_dot, Optional); (is_digit, OneOrMore)] (String d (fp ++ rest)))
    with (if is_dot d
          then or_else (consume d (exec_at [(is_digit, OneOrMore)] (fp ++ rest)))
                 (exec_at [(is_digit, OneOrMore)] (String d (fp ++ rest)))
          else exec_at [(is_digit, OneOrMore)] (String d (fp ++ rest))).
  now rewrite Hd, (digits_plus fp rest Hfp Hne Hrest).
Qed.

Lemma take_digits_spec (s ip r : string) :
  take_digits s = (ip, r) ->
  s = ip ++ r /\ Spec.all_chars is_digit ip = true /\ stops is_digit r.
Proof.
  revert ip r. induction s as [| c s IH]; intros ip r H; cbn in H.
  - injection H as <- <-. now repeat split.
  - destruct (is_digit c) eqn:Hc.
    + destruct (take_digits s) as [ds rest]. injection H as <- <-.
      destruct (IH ds rest eq_refl) as (-> & Hds & Hrest).
      cbn. rewrite Hc, Hds. now repeat split.
    + injection H as <- <-. now repeat split.
Qed.

(** The pattern behind the sign, [[0-9]*\.?[0-9]+], takes a whole unsigned
    number before a text that starts with neither a digit nor a dot. *)
Lemma exec_at_unsigned (core rest : string) :
  (let (ip, r) := take_digits core in
   match r with
   | EmptyString => negb (String.eqb ip EmptyString)
   | String c r' =>
       is_dot c &&
       (let (fp, r'') := take_digits r' in
        negb (String.eqb fp EmptyString) && String.eqb r'' EmptyString)
   end) = true ->
  stops is_digit rest -> stops is_dot rest ->
  star is_digit (exec_at [(is_dot, Optional); (is_digit, OneOrMore)]) (core ++ rest)
  = Some (core, rest).
Proof.
  intros H Hdigit Hdot.
  destruct (take_digits core) as [ip r] eqn:E.
  destruct (take_digits_spec core ip r E) as (-> & Hip & _).
  destruct r as [| d r'].
  - rewrite append_empty_r. apply digits_integer; try assumption.
    intros ->. discriminate.
  - apply andb_true_iff in H as [Hd H].
    destruct (take_digits r') as [fp r''] eqn:E'.
    destruct (take_digits_spec r' fp r'' E') as (-> & Hfp & _).
    apply andb_true_iff in H as [Hne Hend].
    apply String.eqb_eq in Hend. subst r''. rewrite append_empty_r.
    rewrite append_assoc. cbn [append].
    rewrite (star_take is_digit _ ip (String d (fp ++ rest)) (String d fp) rest).
    + reflexivity.
    + exact Hip.
    + cbn. now apply dot_not_digit.
    + apply dot_fraction; try assumption. intros ->. discriminate.
Qed.

(** The regular expression at a character: the sign, when it is one, then
    the unsigned pattern; the unsigned pattern at once otherwise. *)
Lemma exec_at_regex (c : ascii) (s : string) :
  exec_at regex (String c s)
  = if is_sign c
    then or_else
           (consume c
              (star is_digit (exec_at [(is_dot, Optional); (is_digit, OneOrMore)]) s))
           (star is_digit (exec_at [(is_dot, Optional); (is_digit, OneOrMore)]) (String c s))
    else star is_digit (exec_at [(is_dot, Optional); (is_digit, OneOrMore)]) (String c s).
Proof. reflexivity. Qed.

(** The regular expression takes a whole numeric token before a text that
    starts with neither a digit nor a dot. *)
Lemma exec_at_token (t rest : string) :
  Spec.is_numeric_token t = true ->
  stops is_digit rest -> stops is_dot rest ->
  exec_at regex (t ++ rest) = Some (t, rest).
Proof.
  unfold Spec.is_numeric_token. intros H Hdigit Hdot.
  destruct t as [| c t]; [discriminate |].
  cbn [append]. rewrite exec_at_regex.
  destruct (is_sign c) eqn:Hsign.
  - destruct (take_sign_sign c t Hsign) as [neg Hneg]. rewrite Hneg in H.
    rewrite (exec_at_unsigned t rest H Hdigit Hdot). reflexivity.
  - rewrite (take_sign_other c t Hsign) in H.
    apply (exec_at_unsigned (String c t) rest H Hdigit Hdot).
Qed.

Lemma command_not_numeric (w : string) :
  isCommand w = true -> Spec.is_numeric_token w = false.
Proof.
  destruct w as [| c [| c' w]]; try discriminate. cbn [isCommand].
  intros H. apply negb_true_iff in H.
  apply orb_false_iff in H as [H Hdot]. apply orb_false_iff in H as [Hsign Hdigit].
  unfold Spec.is_numeric_token.
  now rewrite (take_sign_other c _ Hsign), (take_digits_other c _ Hdigit), Hdot.
Qed.

(** Words joined by single spaces, each a numeric token or a command
    letter: the scan finds the numeric tokens, whole and in order. *)
Lemma scan_words (items : list string) :
  Forall (fun w => Spec.is_numeric_token w = true \/ isCommand w = true) items ->
  scan regex 0 (String.concat " " items) = filter Spec.is_numeric_token items.
Proof.
  induction 1 as [| w items Hw _ IH]; [reflexivity |].
  assert (Htail : exists tail,
             String.concat " " (w :: items) = w ++ tail /\
             stops is_digit tail /\ stops is_dot tail /\
             scan regex 0 tail = filter Spec.is_numeric_token items).
  { destruct items as [| w' items].
    - exists EmptyString. cbn [String.concat]. rewrite append_empty_r.
      now repeat split.
    - exists (" " ++ String.concat " " (w' :: items)). repeat split.
      rewrite <- IH. apply scan_miss. now apply exec_at_other. }
  destruct Htail as (tail & -> & Hdigit & Hdot & Hscan).
  cbn [filter]. destruct Hw as [Hw | Hw].
  - rewrite Hw, (scan_match regex (w ++ tail) w tail (exec_at_token w tail Hw Hdigit Hdot)).
    + now rewrite Hscan.
    + intros ->. discriminate.
  - rewrite (command_not_numeric w Hw).
    destruct w as [| c [| c' w]]; try discriminate. cbn [isCommand] in Hw.
    apply negb_true_iff in Hw.
    apply orb_false_iff in Hw as [Hw Hd]. apply orb_false_iff in Hw as [Hs Hg].
    cbn [append]. rewrite (scan_miss regex c tail (exec_at_other c tail Hs Hg Hd)).
    exact Hscan.
Qed.

Lemma pair_up_steps (steps : list (Vec2 * Vec2)) :
  Spec.pair_up
    (flat_map (fun step =>
                 [ fst (fst step); snd (fst step);
                   fst (Spec.midpoint (fst step) (snd step));
                   snd (Spec.midpoint (fst step) (snd step)) ]) steps)
  = flat_map (fun step => [fst step; Spec.midpoint (fst step) (snd step)]) steps.
Proof.
  induction steps as [| [[x y] next] steps IH]; [reflexivity |].
  cbn [flat_map app Spec.pair_up fst snd]. now rewrite IH.
Qed.

Lemma pair_up_pathNumbers (ring : list Vec2) :
  Spec.pair_up (pathNumbers ring) = decodedRing ring.
Proof.
  destruct ring as [| [x y] ring]; [reflexivity |].
  unfold pathNumbers, decodedRing. cbn [fst snd Spec.pair_up].
  now rewrite pair_up_steps.
Qed.

Lemma quadratic_numbers (toString : number -> string) (steps : list (Vec2 * Vec2)) :
  flat_map (fun step => Spec.quadratic toString (fst step)
                          (Spec.midpoint (fst step) (snd step))) steps
  = map toString
      (flat_map (fun step =>
                   [ fst (fst step); snd (fst step);
                     fst (Spec.midpoint (fst step) (snd step));
                     snd (Spec.midpoint (fst step) (snd step)) ]) steps).
Proof.
  induction steps as [| step steps IH]; [reflexivity |].
  cbn [flat_map]. rewrite map_app, IH. reflexivity.
Qed.

(** The points extracted from the path of a ring, when numbers print as
    numeric tokens that read back. *)
Lemma decode_encode (platform : Platform) (ring : list Vec2) :
  (forall n, In n (pathNumbers ring) ->
     Spec.is_numeric_token (Number_toString platform n) = true /\
     parseFloat (Number_toString platform n) = Some n) ->
  extractPointsFromPath (getSvgPathFromStroke platform ring)
  = map (fun p => mkSample (fst p) (snd p) 0.5) (decodedRing ring).
Proof.
  intros Hprint.
  rewrite EncodeFacts.getSvgPathFromStroke_encode.
  rewrite <- pair_up_pathNumbers. apply extractPointsFromPath_pairs.
  destruct ring as [| first ring]; [reflexivity |].
  unfold Spec.encode. rewrite scan_words.
  - rewrite quadratic_numbers.
    set (numbers := flat_map _ _).
    assert (Hnum : forall n, In n (fst first :: snd first :: numbers) ->
              Spec.is_numeric_token (Number_toString platform n) = true)
      by (intros n Hn; now apply Hprint).
    cbn [app filter].
    change (Spec.is_numeric_token "M") with false.
    change (Spec.is_numeric_token "Q") with false.
    rewrite (Hnum (fst first)) by (cbn; tauto).
    rewrite (Hnum (snd first)) by (cbn; tauto).
    rewrite filter_app. cbn [filter].
    change (Spec.is_numeric_token "Z") with false.
    rewrite EraseFacts.filter_all, app_nil_r.
    + change (Number_toString platform (fst first)
                :: Number_toString platform (snd first)
                :: map (Number_toString platform) numbers)
        with (map (Number_toString platform) (fst first :: snd first :: numbers)).
      rewrite map_map. apply map_ext_in. intros n Hn. now apply Hprint.
    + intros w Hw. apply in_map_iff in Hw as [n [<- Hn]].
      apply Hnum. cbn. tauto.
  - rewrite quadratic_numbers.
    set (numbers := flat_map _ _).
    assert (Hnum : forall n, In n (fst first :: snd first :: numbers) ->
              Spec.is_numeric_token (Number_toString platform n) = true)
      by (intros n Hn; now apply Hprint).
    repeat apply Forall_cons; try (now right);
      try (left; apply Hnum; cbn; tauto).
    apply Forall_app. split; [| repeat constructor; now right].
    apply Forall_forall. intros w Hw. apply in_map_iff in Hw as [n [<- Hn]].
    left. apply Hnum. cbn. tauto.
Qed.

(** X18: decoding an encoded ring.  When the conversion of numbers to
    strings writes each number of the path as a numeric token that
    [parseFloat] reads back as that number, the points extracted from the
    path of a ring are the first ring point, then every ring point
    followed by the midpoint between it and the next one, all of pressure
    0.5: one more than twice as many points as the ring has, the first of
    them the first ring point. *)
Theorem X18_decoding_an_encoded_ring (platform : Platform) (ring : list Vec2) :
  (forall n, In n (pathNumbers ring) ->
     Spec.is_numeric_token (Number_toString platform n) = true /\
     parseFloat (Number_toString platform n) = Some n) ->
  extractPointsFromPath (getSvgPathFromStroke platform ring)
    = map (fun p => mkSample (fst p) (snd p) 0.5) (decodedRing ring) /\
  (ring <> [] ->
   List.length (extractPointsFromPath (getSvgPathFromStroke platform ring))
     = 2 * List.length ring + 1 /\
   hd_error (extractPointsFromPath (getSvgPathFromStroke platform ring))
     = option_map (fun p => mkSample (fst p) (snd p) 0.5) (hd_error ring)).
Proof.
  intros Hprint.
  pose proof (decode_encode platform ring Hprint) as Hdecode.
  split; [exact Hdecode |].
  intros Hring. rewrite Hdecode. destruct ring as [| first ring]; [contradiction |].
  split; [| reflexivity].
  rewrite length_map. unfold decodedRing. cbn [List.length Spec.next_in_ring].
  assert (Hlen : forall (a b : list Vec2), List.length a = List.length b ->
            List.length (flat_map (fun step => [fst step; Spec.midpoint (fst step) (snd step)])
                           (combine a b)) = 2 * List.length a).
  { induction a as [| x a IH]; intros [| y b] H; try discriminate; [reflexivity |].
    cbn [combine flat_map app List.length]. rewrite IH by (cbn in H; lia). lia. }
  rewrite Hlen; [cbn [List.length]; lia |].
  rewrite length_app. cbn. lia.
Qed.

(** X18 on a ring of one point, with numbers printed as integers. *)
Lemma X18_round_trip_witness :
  extractPointsFromPath (getSvgPathFromStroke Examples.platform [(2, 4)]%R)
  = [ mkSample 2 4 0.5; mkSample 2 4 0.5; mkSample ((2 + 2) / 2) ((4 + 4) / 2) 0.5 ].
Proof.
  apply (X18_decoding_an_encoded_ring Examples.platform [(2, 4)]%R).
  assert (H2 : Spec.is_numeric_token (Number_toString Examples.platform 2) = true /\
               parseFloat (Number_toString Examples.platform 2) = Some 2%R).
  { cbn [Number_toString Examples.platform]. rewrite (NumberFacts.Int_part_IZR 2).
    split; [reflexivity | apply (parseFloat_digit "2" 2 eq_refl)]. }
  assert (H4 : Spec.is_numeric_token (Number_toString Examples.platform 4) = true /\
               parseFloat (Number_toString Examples.platform 4) = Some 4%R).
  { cbn [Number_toString Examples.platform]. rewrite (NumberFacts.Int_part_IZR 4).
    split; [reflexivity | apply (parseFloat_digit "4" 4 eq_refl)]. }
  intros n Hn. cbn in Hn.
  destruct Hn as [<- | [<- | [<- | [<- | [<- | [<- | []]]]]]]; try assumption.
  - replace ((2 + 2) / 2)%R with 2%R by lra. exact H2.
  - replace ((4 + 4) / 2)%R with 4%R by lra. exact H4.
Defined.

(** X19: a stroke whose samples were decoded from the path of a ring can
    be erased at the ring's first point: with an eraser of positive size
    and the pointer on that point, [erase] removes it from the committed
    strokes (numbers printing as numeric tokens that read back). *)
Theorem X19_an_encoded_stroke_is_erased_at_its_first_point
    (platform : Platform) (first : Vec2) (ring : list Vec2)
    (rect : DrawingComponent.DOMRect) (e : DrawingComponent.PointerEvent)
    (s : DrawingStroke.t) (this : DrawingComponent.State) :
  (forall n, In n (pathNumbers (first :: ring)) ->
     Spec.is_numeric_token (Number_toString platform n) = true /\
     parseFloat (Number_toString platform n) = Some n) ->
  DrawingStroke.points s
    = extractPointsFromPath (getSvgPathFromStroke platform (first :: ring)) ->
  (DrawingComponent.clientX e - DrawingComponent.left rect = fst first)%R ->
  (DrawingComponent.clientY e - DrawingComponent.top rect = snd first)%R ->
  (0 < EraserConfig.size (DrawingComponent.Tools.eraser (DrawingComponent.tools this)))%R ->
  ~ In s (DrawingComponent.allStrokes (DrawingComponent.erase rect e this)).
Proof.
  intros Hprint Hpoints Hx Hy Hsize Hin.
  unfold DrawingComponent.erase, DrawingComponent.getCoords in Hin.
  cbn [DrawingComponent.allStrokes DrawingComponent.set_allStrokes] in Hin.
  apply filter_In in Hin as [_ Hkept]. apply negb_true_iff in Hkept.
  apply StoreFacts.shouldEraseStroke_clear in Hkept.
  unfold Spec.clear in Hkept.
  rewrite Hpoints, (decode_encode platform (first :: ring) Hprint) in Hkept.
  cbn [decodedRing map] in Hkept. inversion Hkept as [| p ps Hfirst _]; subst.
  unfold Spec.distance in Hfirst. cbn [s_x s_y] in Hfirst.
  rewrite Hx, Hy in Hfirst.
  replace ((fst first - fst first)² + (snd first - snd first)²)%R with 0%R in Hfirst
    by (unfold Rsqr; lra).
  rewrite sqrt_0 in Hfirst. lra.
Qed.

(** X19 on the ring of one point (2, 4), imported and erased at (2, 4). *)
Lemma X19_erased_witness :
  let s := DrawingStroke.mk
             (extractPointsFromPath (getSvgPathFromStroke Examples.platform [(2, 4)]%R))
             "M 2 4 Q 2 4 2 4 Z" "#000000" (Some 1%R) "#000000" (Some 0%R) in
  ~ In s (DrawingComponent.allStrokes
            (DrawingComponent.erase Examples.origin (Examples.pointerAt 2 4)
               (Examples.stateWith [s] [] DrawingComponent.Eraser))).
Proof.
  intros s.
  apply (X19_an_encoded_stroke_is_erased_at_its_first_point Examples.platform
           (2, 4)%R [] Examples.origin (Examples.pointerAt 2 4) s
           (Examples.stateWith [s] [] DrawingComponent.Eraser)).
  - assert (H2 : Spec.is_numeric_token (Number_toString Examples.platform 2) = true /\
                 parseFloat (Number_toString Examples.platform 2) = Some 2%R).
    { cbn [Number_toString Examples.platform]. rewrite (NumberFacts.Int_part_IZR 2).
      split; [reflexivity | apply (parseFloat_digit "2" 2 eq_refl)]. }
    assert (H4 : Spec.is_numeric_token (Number_toString Examples.platform 4) = true /\
                 parseFloat (Number_toString Examples.platform 4) = Some 4%R).
    { cbn [Number_toString Examples.platform]. rewrite (NumberFacts.Int_part_IZR 4).
      split; [reflexivity | apply (parseFloat_digit "4" 4 eq_refl)]. }
    intros n Hn. cbn in Hn.
    destruct Hn as [<- | [<- | [<- | [<- | [<- | [<- | []]]]]]]; try assumption.
    + replace ((2 + 2) / 2)%R with 2%R by lra. exact H2.
    + replace ((4 + 4) / 2)%R with 4%R by lra. exact H4.
  - reflexivity.
  - cbn. lra.
  - cbn. lra.
  - cbn. lra.
Defined.

End RoundTripFacts.

(** ** Imported numbers, and gestures in the history *)

Module CompositionFacts.

Import JS Numeric DrawingService DrawingComponent.
Import ArrayFacts StoreFacts DecodeFacts Scenarios GestureFacts.
Local Open Scope string_scope.

Lemma importedNumber_or_default (attribute : option string) (z : Z) (text : string) :
  StrDecimalLiteral text = Some (mkDecimal false z 0) ->
  parseFloat (or_default attribute text) = importedNumber attribute (IZR z).
Proof.
  intros Htext. destruct attribute as [[| c v] |]; cbn [or_default importedNumber];
    try reflexivity; now apply parseFloat_digit.
Qed.

Lemma importPath_one_numbers (strokes : list DrawingStroke.t) (path : DOM.Element) :
  (Spec.has_path_data path = false /\ importPath strokes path = strokes) \/
  (Spec.has_path_data path = true /\
   exists s,
     importPath strokes path = (strokes ++ [s])%list /\
     DrawingStroke.opacity s = importedNumber (DOM.getAttribute path "fill-opacity") 1 /\
     DrawingStroke.outlineWidth s = importedNumber (DOM.getAttribute path "stroke-width") 0).
Proof.
  unfold Spec.has_path_data, importPath.
  destruct (DOM.getAttribute path "d") as [[| c d] |]; [now left | right | now left].
  split; [reflexivity |]. eexists. split; [reflexivity |].
  cbn [DrawingStroke.opacity DrawingStroke.outlineWidth].
  split; [apply (importedNumber_or_default _ 1 "1") | apply (importedNumber_or_default _ 0 "0")];
    reflexivity.
Qed.

Lemma importPath_numbers (paths : list DOM.Element) :
  Forall2
    (fun path s =>
       DrawingStroke.opacity s = importedNumber (DOM.getAttribute path "fill-opacity") 1 /\
       DrawingStroke.outlineWidth s = importedNumber (DOM.getAttribute path "stroke-width") 0)
    (filter Spec.has_path_data paths) (fold_left importPath paths []).
Proof.
  induction paths as [| path paths IH]; [constructor |].
  cbn [fold_left filter]. rewrite importPath_fold.
  destruct (importPath_one_numbers [] path) as [[Hno ->] | [Hyes [s [-> Hs]]]].
  - now rewrite Hno.
  - rewrite Hyes. constructor; assumption.
Qed.

(** X20: the opacity and the outline width of an imported stroke are what
    [parseFloat] makes of the [fill-opacity] and [stroke-width] attributes
    of its path element, which is [NaN] for a text that starts with no
    number; a missing or empty attribute gives opacity 1 and outline
    width 0. *)
Theorem X20_imported_opacity_and_outline_width
    (platform : Platform) (svgContent : string) (svgElement : DOM.Element) :
  DOM.Document_querySelector (parseFromString platform svgContent) "svg" = Some svgElement ->
  Forall2
    (fun path s =>
       DrawingStroke.opacity s = importedNumber (DOM.getAttribute path "fill-opacity") 1 /\
       DrawingStroke.outlineWidth s = importedNumber (DOM.getAttribute path "stroke-width") 0)
    (filter Spec.has_path_data (DOM.querySelectorAll svgElement "path"))
    (parseSVGContent platform svgContent).
Proof.
  intros Hsvg. unfold parseSVGContent. rewrite Hsvg. apply importPath_numbers.
Qed.

(** X20 on a document whose one path with data has neither attribute. *)
Lemma X20_imported_numbers_witness :
  Forall (fun s => DrawingStroke.opacity s = Some 1%R /\
                   DrawingStroke.outlineWidth s = Some 0%R)
    (parseSVGContent Examples.platform "two").
Proof.
  pose proof (X20_imported_opacity_and_outline_width Examples.platform "two"
                Examples.twoPaths eq_refl) as Hall.
  change (filter Spec.has_path_data (DOM.querySelectorAll Examples.twoPaths "path"))
    with [DOM.Elem "path" [("d", "M1 2 Q3 4 5 6 Z"); ("fill", "none")] []] in Hall.
  inversion Hall as [| path s paths strokes Hs Hrest]; subst.
  inversion Hrest; subst. constructor; [exact Hs | constructor].
Defined.

(** What a pen gesture leaves committed. *)
Lemma gesture_pen_strokes
    (platform : Platform) (rect : DOMRect) (down : PointerEvent)
    (moves : list PointerEvent) (this : State) (tool : ToolConfig.t) :
  drawingTool (tools this) (activeTool this) = Some tool ->
  exists s,
    allStrokes (gesture platform rect down moves this) = Array_push (allStrokes this) s /\
    redoStack (gesture platform rect down moves this) = [] /\
    DrawingStroke.points s
      = sampleOf rect down :: map (sampleOf rect) (filter pressed moves).
Proof.
  intros Htool. unfold gesture.
  assert (Hdown : onPointerDown rect down this
                  = set_redoStack [] (set_currentPoints [sampleOf rect down] this)).
  { unfold onPointerDown. now rewrite (drawingTool_pen this tool Htool). }
  rewrite Hdown, (drag_pen platform rect moves _ tool) by exact Htool.
  unfold onPointerUp.
  cbn [currentPoints activeTool tools previewPath allStrokes
       set_redoStack set_currentPoints set_previewPath set_allStrokes
       isDragging sidebarOpen isSending redoStack app List.length Nat.ltb Nat.leb andb].
  rewrite (drawingTool_pen this tool Htool), Htool. cbn [negb].
  eexists. cbn [allStrokes redoStack set_allStrokes set_currentPoints set_previewPath].
  split; [reflexivity |]. split; reflexivity.
Qed.

(** X21: a pen gesture is one step of the history: [undo] right after it
    gives back the committed strokes from before the gesture and leaves
    the gesture's stroke alone on the redo stack, and [redo] then gives
    back the state after the gesture. *)
Theorem X21_undo_takes_back_a_pen_gesture
    (platform : Platform) (rect : DOMRect) (down : PointerEvent)
    (moves : list PointerEvent) (this : State) (tool : ToolConfig.t) :
  drawingTool (tools this) (activeTool this) = Some tool ->
  let after := gesture platform rect down moves this in
  allStrokes (undo after) = allStrokes this /\
  (exists s, redoStack (undo after) = [s] /\
             DrawingStroke.points s
               = sampleOf rect down :: map (sampleOf rect) (filter pressed moves)) /\
  redo (undo after) = after.
Proof.
  intros Htool after.
  destruct (gesture_pen_strokes platform rect down moves this tool Htool)
    as (s & Hcommitted & Hredo & Hpoints).
  fold after in Hcommitted, Hredo.
  assert (Hback : redo (undo after) = after).
  { apply redo_undo. rewrite Hcommitted. unfold Array_push.
    destruct (allStrokes this); discriminate. }
  rewrite (undo_push after (allStrokes this) s Hcommitted), Hredo in *.
  split; [reflexivity |]. split; [now exists s | exact Hback].
Qed.

(** X21 on the component as constructed. *)
Lemma X21_undo_gesture_witness :
  allStrokes
    (undo (gesture Examples.platform Examples.origin (Examples.pointerAt 0 0)
             [Examples.pointerAt 10 0] initial)) = [].
Proof.
  apply (X21_undo_takes_back_a_pen_gesture Examples.platform Examples.origin
           (Examples.pointerAt 0 0) [Examples.pointerAt 10 0] initial
           (Tools.pen1 (tools initial)) eq_refl).
Defined.

End CompositionFacts.

(** ** The path codec: the tokens of the decoder *)

Module TokenFacts.

Import JS RegExp Numeric DrawingService.
Import StringFacts RegExpFacts DecodeFacts Scenarios RoundTripFacts.
Local Open Scope string_scope.
















End TokenFacts.
